(** * custom_gpu_op_tutorial: the CustomAddMul harness (src/main.cpp)

    A shallow embedding of [main.cpp]: the custom operator's shape
    inference, the fixed-seed tensor fill, the numerical verification
    of the inference result, the timed stress loop and the [main]
    procedure that strings them together around the inference engine.

    The inference engine, the random number library and the clock are
    outside the program; they appear as oracles of an environment. *)

From Stdlib Require Import ZArith QArith List Bool String Ascii Lia.
From Stdlib Require Import Floats.
Import ListNotations.

Set Warnings "-inexact-float".

Local Open Scope Z_scope.

(* ================================================================== *)
(** * Single-precision floats *)
(* ================================================================== *)

(** [float] of the source is IEEE binary32: the Standard Library's
    [spec_float] at precision 24 and maximal exponent 128, with its
    round-to-nearest-even operations. *)
Module F32.

Definition prec : Z := 24.
Definition emax : Z := 128.

Definition float := spec_float.

Definition valid (x : float) : bool := SpecFloat.valid_binary prec emax x.

Definition add (x y : float) : float := SFadd prec emax x y.
Definition sub (x y : float) : float := SFsub prec emax x y.
Definition mul (x y : float) : float := SFmul prec emax x y.
Definition div (x y : float) : float := SFdiv prec emax x y.
(** [std::abs] on a float *)
Definition abs (x : float) : float := SFabs x.

Definition zero : float := S754_zero false.
Definition one : float := S754_finite false 8388608 (-23).
Definition two : float := S754_finite false 8388608 (-22).
Definition nan : float := S754_nan.

Definition is_nan (x : float) : bool :=
  match x with S754_nan => true | _ => false end.

(** ** Comparison

    The comparison operators of C++ compare the values two floats
    denote; a NaN is unordered, so every comparison with it is
    false.  A [float] compared with a [double] is first promoted,
    which keeps its value: comparing values covers both cases. *)

Inductive xreal := XNegInf | XFin (q : Q) | XPosInf.

Definition SF2Q (s : bool) (m : positive) (e : Z) : Q :=
  (inject_Z (cond_Zopp s (Zpos m)) * (2 ^ e))%Q.

Definition value (x : spec_float) : option xreal :=
  match x with
  | S754_nan => None
  | S754_zero _ => Some (XFin 0%Q)
  | S754_infinity s => Some (if s then XNegInf else XPosInf)
  | S754_finite s m e => Some (XFin (SF2Q s m e))
  end.

Definition xlt (a b : xreal) : bool :=
  match a, b with
  | XNegInf, XNegInf => false
  | XNegInf, _ => true
  | XFin _, XNegInf => false
  | XFin p, XFin q => negb (Qle_bool q p)
  | XFin _, XPosInf => true
  | XPosInf, _ => false
  end.

Definition xle (a b : xreal) : bool := negb (xlt b a).

(** [x < y] *)
Definition lt (x y : spec_float) : bool :=
  match value x, value y with
  | Some a, Some b => xlt a b
  | _, _ => false
  end.

(** [x <= y] *)
Definition le (x y : spec_float) : bool :=
  match value x, value y with
  | Some a, Some b => xle a b
  | _, _ => false
  end.

(** [x > y] and [x >= y] *)
Definition gt (x y : spec_float) : bool := lt y x.
Definition ge (x y : spec_float) : bool := le y x.

(** [std::max(a, b)] is [(a < b) ? b : a]. *)
Definition max (a b : float) : float := if lt a b then b else a.

End F32.

Definition float : Type := F32.float.

(** The literal [1e-3] of the verification is a [double]: the binary64
    number nearest to 1/1000. *)
Definition tolerance : spec_float := S754_finite false 4611686018427388 (-62).

(** [diff > 1e-3]: the float [diff] is promoted to [double]. *)
Definition exceeds_tolerance (diff : float) : bool := F32.gt diff tolerance.

(* ================================================================== *)
(** * Strings *)
(* ================================================================== *)

Local Open Scope string_scope.
Local Open Scope list_scope.
Local Open Scope Z_scope.

(** [s.find(pat)]: the position of the first occurrence of [pat] in
    [s]; [None] stands for [std::string::npos]. *)
Fixpoint string_find (s pat : string) : option nat :=
  if String.prefix pat s then Some 0%nat
  else match s with
       | EmptyString => None
       | String _ s' => option_map S (string_find s' pat)
       end.

(** What "the name contains [pat]" means. *)
Definition contains (s pat : string) : Prop :=
  exists pre post, s = (pre ++ pat ++ post)%string.

(* ================================================================== *)
(** * The custom operator *)
(* ================================================================== *)

(** [class CustomAddMul : public ov::op::Op].  The node keeps, as the
    engine's [ov::Node] does, a descriptor (element type and partial
    shape) for each input and each output. *)
Module CustomAddMul.

Inductive element_type :=
  | dynamic | boolean | bf16 | f16 | f32 | f64
  | i8 | i16 | i32 | i64 | u8 | u16 | u32 | u64.

(** A dimension is an interval of sizes; [None] as upper bound is
    an unbounded (dynamic) dimension. *)
Record dimension := { dim_min : nat; dim_max : option nat }.

(** A partial shape has a dynamic rank or a list of dimensions. *)
Inductive partial_shape :=
  | RankDynamic
  | Ranked (dims : list dimension).

Record descriptor := {
  desc_type : element_type;
  desc_shape : partial_shape
}.

Record node := {
  inputs : list descriptor;
  outputs : list descriptor
}.

Definition get_input_size (n : node) : nat := List.length (inputs n).

(** Both accessors raise in the engine when [i] is out of range. *)
Definition get_input_element_type (n : node) (i : nat) : option element_type :=
  option_map desc_type (nth_error (inputs n) i).

Definition get_input_partial_shape (n : node) (i : nat) : option partial_shape :=
  option_map desc_shape (nth_error (inputs n) i).

(** [ov::Node::get_output_descriptor] appends fresh outputs of
    dynamic type and shape until position [i] exists. *)
Definition fresh_output : descriptor :=
  {| desc_type := dynamic; desc_shape := RankDynamic |}.

Fixpoint set_nth_output (outs : list descriptor) (i : nat) (d : descriptor)
  : list descriptor :=
  match i, outs with
  | O, [] => [d]
  | O, _ :: rest => d :: rest
  | S i', [] => fresh_output :: set_nth_output [] i' d
  | S i', o :: rest => o :: set_nth_output rest i' d
  end.

Definition set_output_type (n : node) (i : nat)
           (et : element_type) (ps : partial_shape) : node :=
  {| inputs := inputs n;
     outputs := set_nth_output (outputs n) i
                  {| desc_type := et; desc_shape := ps |} |}.

(** [void validate_and_infer_types() override]; [None] is an
    exception of an accessor. *)
Definition validate_and_infer_types (n : node) : option node :=
  if (0 <? get_input_size n)%nat then
    match get_input_element_type n 0, get_input_partial_shape n 0 with
    | Some et, Some ps => Some (set_output_type n 0 et ps)
    | _, _ => None
    end
  else Some n.

Definition output_descriptor (n : node) (i : nat) : option descriptor :=
  nth_error (outputs n) i.

End CustomAddMul.

(* ================================================================== *)
(** * Tensors and the fixed-seed fill *)
(* ================================================================== *)

(** An [ov::Tensor] of element type [f32]: shape metadata and a dense
    buffer of floats, which [tensor.data<float>()] points to. *)
Record Tensor := {
  get_shape : list nat;
  data : list float
}.

(** [tensor.get_size()]: the number of elements of the buffer. *)
Definition get_size (t : Tensor) : nat := List.length (data t).

(** [p[i]] and [p[i] = v] on a buffer of floats; outside the buffer
    both are undefined behaviour, [None] here. *)
Definition load {A} (buf : list A) (i : nat) : option A := nth_error buf i.

Fixpoint store {A} (buf : list A) (i : nat) (v : A) : option (list A) :=
  match buf, i with
  | [], _ => None
  | _ :: rest, O => Some (v :: rest)
  | x :: rest, S i' => option_map (cons x) (store rest i' v)
  end.

(** The random number library: [std::mt19937] and
    [std::uniform_real_distribution<float> dis(0.0f, 1.0f)]. *)
Class UniformRandom := {
  engine : Type;
  (** [std::mt19937 gen(seed)] *)
  seed_engine : Z -> engine;
  (** [dis(gen)]: the value drawn and the advanced engine *)
  draw : engine -> float * engine
}.

(** The contract of [uniform_real_distribution(0.0f, 1.0f)]: a float
    of the format with [0 <= x < 1]. *)
Definition in_unit_interval (x : float) : bool :=
  F32.le F32.zero x && F32.lt x F32.one.

Definition draw_contract `{UniformRandom} : Prop :=
  forall g, F32.valid (fst (draw g)) = true /\
            in_unit_interval (fst (draw g)) = true.

Section Fill.
Context `{rng : UniformRandom}.

(** [for (size_t i = 0; i < size; ++i) data[i] = dis(gen);] with
    [n] iterations left. *)
Fixpoint fill_loop (n : nat) (i : nat) (gen : engine) (buf : list float)
  : option (list float) :=
  match n with
  | O => Some buf
  | S n' =>
      let (v, gen') := draw gen in
      match store buf i v with
      | Some buf' => fill_loop n' (S i) gen' buf'
      | None => None
      end
  end.

(** [void fill_tensor(ov::Tensor& tensor)] *)
Definition fill_tensor (tensor : Tensor) : option Tensor :=
  let size := get_size tensor in
  let gen := seed_engine 42 in
  match fill_loop size 0 gen (data tensor) with
  | Some buf => Some {| get_shape := get_shape tensor; data := buf |}
  | None => None
  end.

(** The first [n] values drawn from an engine. *)
Fixpoint draws (n : nat) (gen : engine) : list float :=
  match n with
  | O => []
  | S n' => let (v, gen') := draw gen in v :: draws n' gen'
  end.

End Fill.

(* ================================================================== *)
(** * Output, exceptions and the engine *)
(* ================================================================== *)

(** An exception of the engine, by its [e.what()]; they all derive
    from [std::exception], which is what the handler of [main]
    catches. *)
Definition exn := string.

Inductive result (A : Type) :=
  | Returns (a : A)
  | Raises (e : exn).
Arguments Returns {A} a.
Arguments Raises {A} e.

Inductive config_value :=
  | CfgString (s : string)
  | CfgElementType (t : CustomAddMul.element_type).

(** [ov::AnyMap], a map ordered by key. *)
Definition AnyMap := list (string * config_value).

(** The calls into the inference engine. *)
Inductive api :=
  | CoreCtor
  | AddExtension
  | GetAvailableDevices
  | ReadModel (path : string)
  | CompileModel (device : string) (config : AnyMap)
  | CreateInferRequest
  | GetInputTensor (i : nat)
  | Infer
  | GetOutputTensor (i : nat).

(** What the program does that can be observed: a line written to a
    stream, or a call into the engine with the exception it raised,
    if any.  Lines that print numbers keep the numbers. *)
Inductive event :=
  | Stdout (line : string)
  | Stderr (line : string)
  | GeneratingInput (H W : nat)
  | Mismatch (i : nat) (got expected : float)
  | Failure (max_diff : float)
  | Progress (iterations elapsed : Z)
  | Total (iterations : Z)
  | Call (op : api) (raised : option exn).

(** The engine and the clock, as the program meets them.  The [k]-th
    [request.infer()] is [request_infer k], the verification run being
    number 0; [clock_now k] is the [k]-th reading of
    [high_resolution_clock::now()], in ticks of a nanosecond. *)
Record Env := {
  core_ctor : result unit;
  core_add_extension : result unit;
  core_get_available_devices : result (list string);
  core_read_model : string -> result unit;
  core_compile_model : string -> AnyMap -> result unit;
  create_infer_request : result unit;
  request_get_input_tensor : nat -> result Tensor;
  request_infer : nat -> result unit;
  request_get_output_tensor : nat -> result Tensor;
  clock_now : nat -> Z
}.

(** How a computation ends: with a value, with an exception on its
    way to the handler, in undefined behaviour, or not within the
    steps granted. *)
Inductive outcome (A : Type) :=
  | Ok (a : A)
  | Throw (e : exn)
  | Undefined
  | OutOfFuel.
Arguments Ok {A} a.
Arguments Throw {A} e.
Arguments Undefined {A}.
Arguments OutOfFuel {A}.

(** A computation: how it ends and what it did on the way. *)
Definition M (A : Type) : Type := outcome A * list event.

Definition ret {A} (a : A) : M A := (Ok a, []).

Definition bind {A B} (m : M A) (f : A -> M B) : M B :=
  match m with
  | (Ok a, t) => let (r, t') := f a in (r, t ++ t')
  | (Throw e, t) => (Throw e, t)
  | (Undefined, t) => (Undefined, t)
  | (OutOfFuel, t) => (OutOfFuel, t)
  end.

Declare Scope prog_scope.
Delimit Scope prog_scope with prog.
Notation "x <- m ;; k" := (bind m (fun x => k))
  (at level 61, m at next level, right associativity) : prog_scope.
Notation "m ;; k" := (bind m (fun _ => k))
  (at level 61, right associativity) : prog_scope.

Definition print (ev : event) : M unit := (Ok tt, [ev]).

Definition call {A} (op : api) (r : result A) : M A :=
  match r with
  | Returns a => (Ok a, [Call op None])
  | Raises e => (Throw e, [Call op (Some e)])
  end.

(** An access that is undefined behaviour when it is [None]. *)
Definition defined {A} (o : option A) : M A :=
  match o with
  | Some a => ret a
  | None => (Undefined, [])
  end.

Local Open Scope prog_scope.

(* ================================================================== *)
(** * The main procedure *)
(* ================================================================== *)

(** ** Looking for a GPU *)

(** The loop over [devices] that sets [gpu_found] and breaks. *)
Fixpoint find_gpu (devices : list string) : bool :=
  match devices with
  | [] => false
  | device :: rest =>
      match string_find device "GPU" with
      | Some _ => true
      | None => find_gpu rest
      end
  end.

(** ["Available devices: "] followed by each name and a space. *)
Definition available_devices_line (devices : list string) : string :=
  fold_left (fun line d => (line ++ d ++ " ")%string) devices
            "Available devices: "%string.

Definition gpu_warning (devices : list string) : list event :=
  [ Stderr "GPU not found! This tutorial requires an Intel GPU.";
    Stderr (available_devices_line devices) ].

Definition check_gpu (devices : list string) : M unit :=
  let gpu_found := find_gpu devices in
  if negb gpu_found then
    print (Stderr "GPU not found! This tutorial requires an Intel GPU.");;
    print (Stderr (available_devices_line devices))
  else ret tt.

(** ** Reading the spatial dimensions *)

(** [shape[2]] and [shape[3]] on the [std::vector] behind [ov::Shape];
    an index outside the vector is [None]. *)
Definition read_HW (shape : list nat) : option (nat * nat) :=
  match load shape 2, load shape 3 with
  | Some H, Some W => Some (H, W)
  | _, _ => None
  end.

(** ** Verification of the inference result *)

(** [(in0_data[i] + in1_data[i]) * in2_data[i]] *)
Definition expected_value (a b c : float) : float :=
  F32.mul (F32.add a b) c.

(** [std::abs(out_data[i] - expected)] *)
Definition deviation (o expected : float) : float :=
  F32.abs (F32.sub o expected).

Section Verify.
Variables out_data in0_data in1_data in2_data : list float.

(** The loop over [i < size], with [n] iterations left; it carries
    [max_diff] and [success]. *)
Fixpoint verify_loop (n i : nat) (max_diff : float) (success : bool)
  : M (float * bool) :=
  match n with
  | O => ret (max_diff, success)
  | S n' =>
      a <- defined (load in0_data i);;
      b <- defined (load in1_data i);;
      c <- defined (load in2_data i);;
      let expected := expected_value a b c in
      o <- defined (load out_data i);;
      let diff := deviation o expected in
      if exceeds_tolerance diff then
        (if (i <? 5)%nat then print (Mismatch i o expected) else ret tt);;
        verify_loop n' (S i) (F32.max max_diff diff) false
      else
        verify_loop n' (S i) max_diff success
  end.

Definition verify (size : nat) : M unit :=
  print (Stdout "Verifying results...");;
  r <- verify_loop size 0 F32.zero true;;
  let (max_diff, success) := r in
  if success then print (Stdout "SUCCESS: Result matches expected output!")
  else print (Failure max_diff).

End Verify.

(** ** The stress loop *)

Definition INT_MAX : Z := 2147483647.

(** [iterations++] on an [int]: past [INT_MAX] it is undefined. *)
Definition int_succ (i : Z) : M Z :=
  if i <? INT_MAX then ret (i + 1) else (Undefined, []).

(** Thirty seconds in ticks of the clock.  [elapsed.count() >= 30.0]
    converts the tick count to seconds in a [double]; the conversion
    is monotone and exact at 30 s, so the test is this one on ticks. *)
Definition thirty_seconds : Z := 30 * 1000000000.

Section Main.
Context `{rng : UniformRandom}.
Variable env : Env.

(** [while (true)] with [n] completed iterations, which is also the
    number of inference calls and of clock readings made since
    [start] was read. *)
Fixpoint stress_loop (fuel : nat) (start : Z) (n : nat) : M Z :=
  match fuel with
  | O => (OutOfFuel, [])
  | S fuel' =>
      call Infer (request_infer env (S n));;
      iterations <- int_succ (Z.of_nat n);;
      let now := clock_now env (S n) in
      let elapsed := now - start in
      if thirty_seconds <=? elapsed then ret iterations
      else
        (if Z.rem iterations 10 =? 0
         then print (Progress iterations elapsed) else ret tt);;
        stress_loop fuel' start (S n)
  end.

Definition newline : string := String (ascii_of_nat 10) EmptyString.

Definition stress_test (fuel : nat) : M unit :=
  print (Stdout (newline ++ "Starting stress test for 30 seconds..."));;
  let start := clock_now env 0 in
  iterations <- stress_loop fuel start 0;;
  print (Total iterations).

(** ** From the configuration to the end of [main] *)

Definition custom_xml : string := "custom_add_mul.xml".
Definition model_xml : string := "model.xml".

Definition config : AnyMap :=
  [ ("CONFIG_FILE"%string, CfgString custom_xml);
    ("INFERENCE_PRECISION_HINT"%string, CfgElementType CustomAddMul.f32) ].

(** The three [fill_tensor] calls. *)
Definition fill_inputs (input0 input1 input2 : Tensor)
  : M (Tensor * Tensor * Tensor) :=
  input0 <- defined (fill_tensor input0);;
  input1 <- defined (fill_tensor input1);;
  input2 <- defined (fill_tensor input2);;
  ret (input0, input1, input2).

(** From the three input tensors to the end of the [try] block. *)
Definition with_inputs (fuel : nat) (input0 input1 input2 : Tensor) : M unit :=
  let shape := get_shape input0 in
  hw <- defined (read_HW shape);;
  print (GeneratingInput (fst hw) (snd hw));;
  inputs <- fill_inputs input0 input1 input2;;
  let '(input0, input1, input2) := inputs in
  print (Stdout "Running inference...");;
  call Infer (request_infer env 0);;
  output <- call (GetOutputTensor 0) (request_get_output_tensor env 0);;
  let size := get_size output in
  verify (data output) (data input0) (data input1) (data input2) size;;
  stress_test fuel.

(** Everything after the device check. *)
Definition after_devices (fuel : nat) : M unit :=
  print (Stdout ("Loading custom layer config from " ++ custom_xml ++ "..."));;
  print (Stdout ("Reading model from " ++ model_xml ++ "..."));;
  call (ReadModel model_xml) (core_read_model env model_xml);;
  print (Stdout "Compiling model on GPU...");;
  call (CompileModel "GPU" config) (core_compile_model env "GPU" config);;
  call CreateInferRequest (create_infer_request env);;
  input0 <- call (GetInputTensor 0) (request_get_input_tensor env 0);;
  input1 <- call (GetInputTensor 1) (request_get_input_tensor env 1);;
  input2 <- call (GetInputTensor 2) (request_get_input_tensor env 2);;
  with_inputs fuel input0 input1 input2.

(** The body of the [try] block. *)
Definition main_body (fuel : nat) : M unit :=
  call CoreCtor (core_ctor env);;
  call AddExtension (core_add_extension env);;
  print (Stdout "Registered CustomAddMul extension.");;
  devices <- call GetAvailableDevices (core_get_available_devices env);;
  check_gpu devices;;
  after_devices fuel.

(** How the process ends. *)
Inductive termination :=
  | Exit (status : Z)
  | UndefinedBehaviour
  | Running.

(** [int main()]: the [try] block, its handler and the two
    [return]s. *)
Definition main (fuel : nat) : termination * list event :=
  match main_body fuel with
  | (Ok _, t) => (Exit 0, t)
  | (Throw e, t) => (Exit 1, t ++ [Stderr ("Exception: " ++ e)])
  | (Undefined, t) => (UndefinedBehaviour, t)
  | (OutOfFuel, t) => (Running, t)
  end.

End Main.

(* ================================================================== *)
(** * Facts about the comparison of floats *)
(* ================================================================== *)

Module F32Facts.
Import F32.

Lemma xlt_fin p q : xlt (XFin p) (XFin q) = true <-> (p < q)%Q.
Proof.
  simpl. rewrite negb_true_iff. split; intro H.
  - apply Qnot_le_lt. intro Hle. apply Qle_bool_iff in Hle. congruence.
  - destruct (Qle_bool q p) eqn:E; [|reflexivity].
    apply Qle_bool_iff in E. exfalso. exact (Qlt_not_le _ _ H E).
Qed.

Lemma xle_fin p q : xle (XFin p) (XFin q) = true <-> (p <= q)%Q.
Proof.
  unfold xle. simpl. rewrite negb_involutive. apply Qle_bool_iff.
Qed.

Lemma xle_refl a : xle a a = true.
Proof. destruct a; try reflexivity. apply xle_fin, Qle_refl. Qed.

Lemma xle_trans a b c : xle a b = true -> xle b c = true -> xle a c = true.
Proof.
  destruct a, b, c; try reflexivity; try discriminate.
  rewrite !xle_fin. apply Qle_trans.
Qed.

Lemma xlt_xle_trans a b c : xlt a b = true -> xle b c = true -> xlt a c = true.
Proof.
  destruct a, b, c; try reflexivity; try discriminate.
  rewrite xle_fin, !xlt_fin. apply Qlt_le_trans.
Qed.

Lemma xle_xlt_trans a b c : xle a b = true -> xlt b c = true -> xlt a c = true.
Proof.
  destruct a, b, c; try reflexivity; try discriminate.
  rewrite xle_fin, !xlt_fin. apply Qle_lt_trans.
Qed.

Lemma xlt_xle a b : xlt a b = true -> xle a b = true.
Proof.
  destruct a, b; try reflexivity; try discriminate.
  rewrite xle_fin, xlt_fin. apply Qlt_le_weak.
Qed.

(** A float that takes part in a true comparison is a number. *)
Lemma lt_not_nan_l x y : lt x y = true -> is_nan x = false.
Proof. destruct x; try reflexivity. discriminate. Qed.

Lemma lt_not_nan_r x y : lt x y = true -> is_nan y = false.
Proof. destruct y; try reflexivity. unfold lt. destruct (value x); discriminate. Qed.

Lemma value_not_nan x : is_nan x = false -> exists a, value x = Some a.
Proof. destruct x; try discriminate; simpl; eauto. Qed.

Lemma value_nan x : is_nan x = true -> value x = None.
Proof. destruct x; try discriminate; reflexivity. Qed.

Lemma le_refl x : is_nan x = false -> le x x = true.
Proof.
  intro H. destruct (value_not_nan x H) as [a Ha].
  unfold le. rewrite Ha. apply xle_refl.
Qed.

Lemma le_trans x y z : le x y = true -> le y z = true -> le x z = true.
Proof.
  unfold le. destruct (value x), (value y), (value z); try discriminate.
  apply xle_trans.
Qed.

Lemma lt_le_trans x y z : lt x y = true -> le y z = true -> lt x z = true.
Proof.
  unfold le, lt. destruct (value x), (value y), (value z); try discriminate.
  apply xlt_xle_trans.
Qed.

Lemma le_lt_trans x y z : le x y = true -> lt y z = true -> lt x z = true.
Proof.
  unfold le, lt. destruct (value x), (value y), (value z); try discriminate.
  apply xle_xlt_trans.
Qed.

Lemma lt_le x y : lt x y = true -> le x y = true.
Proof.
  unfold le, lt. destruct (value x), (value y); try discriminate.
  apply xlt_xle.
Qed.

(** Two numbers are comparable: if [x < y] fails then [y <= x]. *)
Lemma not_lt_le x y :
  is_nan x = false -> is_nan y = false -> lt x y = false -> le y x = true.
Proof.
  intros Hx Hy. destruct (value_not_nan x Hx) as [a Ha].
  destruct (value_not_nan y Hy) as [b Hb].
  unfold le, lt, xle. rewrite Ha, Hb. intros ->. reflexivity.
Qed.

(** With a NaN, [<], [<=], [>] and [>=] are all false. *)
Lemma nan_unordered x :
  is_nan x = true ->
  forall y, lt x y = false /\ le x y = false /\ gt x y = false /\ ge x y = false.
Proof.
  intros H y. unfold gt, ge, lt, le. rewrite (value_nan x H).
  destruct (value y); auto.
Qed.

Lemma max_cases a b : max a b = a \/ max a b = b.
Proof. unfold max. destruct (lt a b); auto. Qed.

Lemma max_not_nan a b :
  is_nan a = false -> is_nan b = false -> is_nan (max a b) = false.
Proof. unfold max. destruct (lt a b); auto. Qed.

Lemma le_max_l a b :
  is_nan a = false -> is_nan b = false -> le a (max a b) = true.
Proof.
  intros Ha Hb. unfold max. destruct (lt a b) eqn:E.
  - now apply lt_le.
  - now apply le_refl.
Qed.

Lemma le_max_r a b :
  is_nan a = false -> is_nan b = false -> le b (max a b) = true.
Proof.
  intros Ha Hb. unfold max. destruct (lt a b) eqn:E.
  - now apply le_refl.
  - now apply not_lt_le.
Qed.

End F32Facts.

(** The double literal [1e-3] of the source and [tolerance] agree. *)
Example tolerance_is_the_double_literal : Prim2SF 0.001%float = tolerance.
Proof. vm_compute. reflexivity. Qed.

Lemma zero_lt_tolerance : F32.lt F32.zero tolerance = true.
Proof. vm_compute. reflexivity. Qed.

(* ================================================================== *)
(** * The verification of the inference result *)
(* ================================================================== *)

Lemma bind_ok {A B} (a : A) (t : list event) (f : A -> M B) :
  bind (Ok a, t) f = (fst (f a), t ++ snd (f a)).
Proof. simpl. destruct (f a); reflexivity. Qed.

Lemma bind_ret {A B} (a : A) (f : A -> M B) : bind (ret a) f = f a.
Proof. unfold ret. rewrite bind_ok. simpl. destruct (f a); reflexivity. Qed.

Lemma bind_print {B} (ev : event) (f : unit -> M B) :
  bind (print ev) f = (fst (f tt), ev :: snd (f tt)).
Proof. unfold print. rewrite bind_ok. reflexivity. Qed.

Lemma load_nth {A} (l : list A) (i : nat) (d : A) :
  (i < List.length l)%nat -> load l i = Some (nth i l d).
Proof. intro H. unfold load. now apply nth_error_nth'. Qed.

Section VerifyFacts.
Variables out_data in0_data in1_data in2_data : list float.

(** The reference value and the deviation of element [i]. *)
Definition expected_at (i : nat) : float :=
  expected_value (nth i in0_data F32.nan) (nth i in1_data F32.nan)
                 (nth i in2_data F32.nan).

Definition deviation_at (i : nat) : float :=
  deviation (nth i out_data F32.nan) (expected_at i).

(** Element [i] fails the test [diff > 1e-3] of the loop. *)
Definition violating (i : nat) : bool := exceeds_tolerance (deviation_at i).

Definition mismatch_line (i : nat) : event :=
  Mismatch i (nth i out_data F32.nan) (expected_at i).

(** The elements of a range that fail the test, in order. *)
Definition violators (i n : nat) : list nat := filter violating (seq i n).

(** [max_diff] after the elements of [l] have been folded into it. *)
Definition fold_max (l : list nat) (m : float) : float :=
  fold_left (fun m j => F32.max m (deviation_at j)) l m.

(** The lines the loop prints over a range. *)
Definition printed_mismatches (i n : nat) : list event :=
  map mismatch_line (filter (fun j => (j <? 5)%nat) (violators i n)).

(** The buffers of the inputs reach as far as the output's. *)
Definition buffers_cover (size : nat) : Prop :=
  (size <= List.length out_data)%nat /\ (size <= List.length in0_data)%nat /\
  (size <= List.length in1_data)%nat /\ (size <= List.length in2_data)%nat.

Lemma verify_loop_spec n : forall i max_diff success,
  buffers_cover (i + n) ->
  verify_loop out_data in0_data in1_data in2_data n i max_diff success =
  (Ok (fold_max (violators i n) max_diff,
       success && forallb (fun j => negb (violating j)) (seq i n)),
   printed_mismatches i n).
Proof.
  induction n as [|n IH]; intros i md s Hc.
  - simpl. unfold ret. now rewrite andb_true_r.
  - destruct Hc as (Ho & H0 & H1 & H2).
    assert (Hc' : buffers_cover (S i + n)).
    { unfold buffers_cover. repeat split; lia. }
    cbn [verify_loop].
    rewrite (load_nth in0_data i F32.nan) by lia.
    rewrite (load_nth in1_data i F32.nan) by lia.
    rewrite (load_nth in2_data i F32.nan) by lia.
    rewrite (load_nth out_data i F32.nan) by lia.
    unfold defined. rewrite !bind_ret.
    fold (expected_at i). fold (deviation_at i). fold (violating i).
    unfold violators, printed_mismatches, violators in *.
    cbn [seq filter forallb].
    destruct (violating i) eqn:V.
    + cbn [negb andb]. rewrite andb_false_r.
      cbn [filter]. destruct (i <? 5)%nat eqn:E.
      * rewrite bind_print, IH by exact Hc'. cbn [fst snd map fold_left].
        fold (mismatch_line i). reflexivity.
      * rewrite bind_ret, IH by exact Hc'. cbn [fold_left]. reflexivity.
    + cbn [negb andb]. rewrite IH by exact Hc'. reflexivity.
Qed.

(** What [verify] reports: the lines for the violating elements
    below index 5, then the verdict. *)
Definition verdict (size : nat) : event :=
  if forallb (fun j => negb (violating j)) (seq 0 size)
  then Stdout "SUCCESS: Result matches expected output!"
  else Failure (fold_max (violators 0 size) F32.zero).

Lemma verify_spec size :
  buffers_cover size ->
  verify out_data in0_data in1_data in2_data size =
  (Ok tt, Stdout "Verifying results..." :: printed_mismatches 0 size ++ [verdict size]).
Proof.
  intro Hc. unfold verify. rewrite bind_print.
  rewrite verify_loop_spec by exact Hc.
  rewrite bind_ok. cbn [fst snd andb]. unfold verdict.
  destruct (forallb _ _); reflexivity.
Qed.

End VerifyFacts.

(** The success criterion in the words of the specification:
    [|output[i] - expected| <= 1e-3]. *)
Definition within_tolerance (diff : float) : bool := F32.le diff tolerance.

Lemma exceeds_within_nan d :
  F32.is_nan d = true -> exceeds_tolerance d = false /\ within_tolerance d = false.
Proof.
  intro H. destruct (F32Facts.nan_unordered d H tolerance) as (_ & Hle & Hgt & _).
  split; assumption.
Qed.

(** For a deviation that is a number the test of the loop is the
    negation of the criterion. *)
Lemma exceeds_within d :
  F32.is_nan d = false -> exceeds_tolerance d = negb (within_tolerance d).
Proof.
  intro H. destruct (F32Facts.value_not_nan d H) as [a Ha].
  unfold exceeds_tolerance, within_tolerance, F32.gt, F32.lt, F32.le, F32.xle.
  rewrite Ha. simpl. now rewrite negb_involutive.
Qed.

Lemma lt_not_le x y : F32.lt x y = true -> F32.le y x = false.
Proof.
  unfold F32.lt, F32.le, F32.xle.
  destruct (F32.value x), (F32.value y); try discriminate.
  now intros ->.
Qed.

Section VerdictFacts.
Variables out_data in0_data in1_data in2_data : list float.

Let dev := deviation_at out_data in0_data in1_data in2_data.
Let bad := violating out_data in0_data in1_data in2_data.
Let fmax := fold_max out_data in0_data in1_data in2_data.
Let viol := violators out_data in0_data in1_data in2_data.

Lemma violating_not_nan j : bad j = true -> F32.is_nan (dev j) = false.
Proof. intro H. exact (F32Facts.lt_not_nan_r _ _ H). Qed.

Lemma in_violators j i n :
  In j (viol i n) <-> (i <= j < i + n)%nat /\ bad j = true.
Proof.
  unfold viol, violators. rewrite filter_In, in_seq. reflexivity.
Qed.

(** The program reports success exactly when no element fails the
    test [diff > 1e-3]. *)
Lemma verdict_success_iff size :
  verdict out_data in0_data in1_data in2_data size =
    Stdout "SUCCESS: Result matches expected output!" <->
  forall i, (i < size)%nat -> bad i = false.
Proof.
  unfold verdict. fold bad.
  destruct (forallb (fun j => negb (bad j)) (seq 0 size)) eqn:E.
  - split; [intros _ i Hi | reflexivity].
    rewrite forallb_forall in E. specialize (E i).
    rewrite in_seq in E. apply negb_true_iff, E. lia.
  - split; [discriminate|]. intro H. exfalso.
    assert (forallb (fun j => negb (bad j)) (seq 0 size) = true); [|congruence].
    apply forallb_forall. intros i Hi. apply in_seq in Hi.
    apply negb_true_iff, H. lia.
Qed.

(** Folding violating elements into [max_diff]: the result is a
    number, above the start and above each of them, and it is the
    start or one of them. *)
Lemma fold_max_inv l : forall m,
  F32.is_nan m = false ->
  (forall j, In j l -> bad j = true) ->
  F32.is_nan (fmax l m) = false /\
  F32.le m (fmax l m) = true /\
  (forall j, In j l -> F32.le (dev j) (fmax l m) = true) /\
  (fmax l m = m \/ exists j, In j l /\ fmax l m = dev j).
Proof.
  unfold fmax, fold_max. fold dev.
  induction l as [|k l IH]; intros m Hm Hl.
  - simpl. repeat split; auto using F32Facts.le_refl; try now intros j [].
  - assert (Hk : F32.is_nan (dev k) = false).
    { apply violating_not_nan, Hl. now left. }
    assert (Hmk : F32.is_nan (F32.max m (dev k)) = false).
    { now apply F32Facts.max_not_nan. }
    destruct (IH (F32.max m (dev k)) Hmk) as (Hn & Hle & Hall & Hex).
    { intros j Hj. apply Hl. now right. }
    cbn [fold_left]. repeat split.
    + exact Hn.
    + eapply F32Facts.le_trans; [|exact Hle]. now apply F32Facts.le_max_l.
    + intros j [<-|Hj].
      * eapply F32Facts.le_trans; [|exact Hle]. now apply F32Facts.le_max_r.
      * now apply Hall.
    + destruct Hex as [Heq | (j & Hj & Heq)].
      * destruct (F32Facts.max_cases m (dev k)) as [E|E].
        -- left. now rewrite Heq.
        -- right. exists k. split; [now left|]. now rewrite Heq.
      * right. exists j. split; [now right | exact Heq].
Qed.

(** On failure the value reported is the largest deviation: it is
    the deviation of a violating element and no deviation that is a
    number lies above it. *)
Lemma failure_reports_maximum size :
  (exists i, (i < size)%nat /\ bad i = true) ->
  let m := fmax (viol 0 size) F32.zero in
  (exists i, (i < size)%nat /\ bad i = true /\ m = dev i) /\
  (forall j, (j < size)%nat -> F32.is_nan (dev j) = false ->
             F32.le (dev j) m = true).
Proof.
  intros (i & Hi & Bi) m.
  destruct (fold_max_inv (viol 0 size) F32.zero eq_refl) as (Hn & Hle & Hall & Hex).
  { intros j Hj. now apply in_violators in Hj. }
  fold m in Hn, Hle, Hall, Hex.
  assert (Him : F32.le (dev i) m = true).
  { apply Hall, in_violators. split; [lia | exact Bi]. }
  assert (Hti : F32.lt tolerance (dev i) = true) by exact Bi.
  split.
  - destruct Hex as [Heq | (j & Hj & Heq)].
    + exfalso. rewrite Heq in Him.
      assert (F32.lt F32.zero (dev i) = true).
      { eapply F32Facts.lt_le_trans; [exact zero_lt_tolerance|].
        now apply F32Facts.lt_le. }
      apply lt_not_le in H. congruence.
    + apply in_violators in Hj. exists j. repeat split; [lia | tauto | exact Heq].
  - intros j Hj Nj. destruct (bad j) eqn:Bj.
    + apply Hall, in_violators. split; [lia | exact Bj].
    + eapply F32Facts.le_trans; [|exact Him].
      eapply F32Facts.le_trans; [|apply F32Facts.lt_le; exact Hti].
      apply F32Facts.not_lt_le; auto.
Qed.

(** When every deviation is a number, the program reports success
    exactly when every element is within the tolerance. *)
Lemma verdict_success_iff_within size :
  (forall i, (i < size)%nat -> F32.is_nan (dev i) = false) ->
  (verdict out_data in0_data in1_data in2_data size =
     Stdout "SUCCESS: Result matches expected output!" <->
   forall i, (i < size)%nat -> within_tolerance (dev i) = true).
Proof.
  intro Hn. rewrite verdict_success_iff.
  split; intros H i Hi; specialize (H i Hi); specialize (Hn i Hi).
  - unfold bad, violating in H. fold dev in H.
    rewrite (exceeds_within _ Hn) in H. now apply negb_false_iff in H.
  - unfold bad, violating. fold dev.
    rewrite (exceeds_within _ Hn), H. reflexivity.
Qed.

End VerdictFacts.

(** One half, a float every fill can produce. *)
Definition half : float := S754_finite false 8388608 (-24).

(** C1 (the code departs from the claim).  The claim: the verification
    reports SUCCESS if and only if every element of the output is
    within 1e-3 of [(in0[i]+in1[i])*in2[i]].  The code: when the output
    holds a NaN, the deviation is a NaN, the test [diff > 1e-3] is false
    and SUCCESS is reported, although that element is not within the
    tolerance. *)
Theorem verify_reports_success_on_nan_output :
  let inputs := [half] in
  let output := [F32.nan] in
  verify output inputs inputs inputs 1 =
    (Ok tt, [ Stdout "Verifying results...";
              Stdout "SUCCESS: Result matches expected output!" ]) /\
  within_tolerance (deviation_at output inputs inputs inputs 0) = false.
Proof. split; vm_compute; reflexivity. Qed.

(** ** Which mismatches are printed *)

Definition is_mismatch (ev : event) : bool :=
  match ev with Mismatch _ _ _ => true | _ => false end.

Definition mismatch_lines (t : list event) : list event := filter is_mismatch t.

(** The reading of the specification: the first five mismatching
    elements, wherever they lie in the tensor. *)
Definition first_five_mismatches (out_data in0_data in1_data in2_data : list float)
           (size : nat) : list event :=
  map (mismatch_line out_data in0_data in1_data in2_data)
      (firstn 5 (violators out_data in0_data in1_data in2_data 0 size)).

Lemma filter_comm {A} (p q : A -> bool) (l : list A) :
  filter p (filter q l) = filter q (filter p l).
Proof.
  induction l as [|x l IH]; [reflexivity|]. simpl.
  destruct (p x) eqn:P, (q x) eqn:Q0; simpl; rewrite ?P, ?Q0, IH; reflexivity.
Qed.

Lemma filter_below_seq (k n : nat) :
  filter (fun j => (j <? k)%nat) (seq 0 n) = seq 0 (Nat.min k n).
Proof.
  induction n as [|n IH]; [now rewrite Nat.min_0_r|].
  rewrite seq_S, filter_app, IH. simpl.
  destruct (n <? k)%nat eqn:E.
  - apply Nat.ltb_lt in E.
    replace (Nat.min k (S n)) with (S n) by lia.
    replace (Nat.min k n) with n by lia. now rewrite seq_S.
  - apply Nat.ltb_ge in E.
    replace (Nat.min k (S n)) with k by lia.
    replace (Nat.min k n) with k by lia. now rewrite app_nil_r.
Qed.

Lemma mismatch_lines_map out_data in0_data in1_data in2_data (l : list nat) :
  mismatch_lines (map (mismatch_line out_data in0_data in1_data in2_data) l) =
  map (mismatch_line out_data in0_data in1_data in2_data) l.
Proof. induction l as [|x l IH]; [reflexivity|]. simpl. now rewrite IH. Qed.

Lemma printed_mismatches_below_5 out_data in0_data in1_data in2_data size :
  printed_mismatches out_data in0_data in1_data in2_data 0 size =
  map (mismatch_line out_data in0_data in1_data in2_data)
      (filter (violating out_data in0_data in1_data in2_data)
              (seq 0 (Nat.min 5 size))).
Proof.
  unfold printed_mismatches, violators.
  now rewrite filter_comm, filter_below_seq.
Qed.

(** C2 (as amended).  Take a run in which no deviation is a NaN.  No
    count of the violating elements is kept: the verification reports
    the mismatch lines and then the verdict, which is the success line
    or the failure line with the maximal deviation.  A mismatch line,
    with the value obtained and the value expected, is printed for
    exactly the elements with an index below 5 that are not within the
    tolerance, in the order of the indices. *)
Theorem verify_prints_mismatches_below_index_5
        (out_data in0_data in1_data in2_data : list float) (size : nat) :
  buffers_cover out_data in0_data in1_data in2_data size ->
  (forall i, (i < size)%nat ->
             F32.is_nan (deviation_at out_data in0_data in1_data in2_data i) = false) ->
  let lines :=
    map (mismatch_line out_data in0_data in1_data in2_data)
        (filter (fun i => negb (within_tolerance
                                  (deviation_at out_data in0_data in1_data in2_data i)))
                (seq 0 (Nat.min 5 size))) in
  verify out_data in0_data in1_data in2_data size =
    (Ok tt, Stdout "Verifying results..." :: lines ++
            [verdict out_data in0_data in1_data in2_data size]) /\
  mismatch_lines (snd (verify out_data in0_data in1_data in2_data size)) = lines /\
  (verdict out_data in0_data in1_data in2_data size =
     Stdout "SUCCESS: Result matches expected output!" \/
   exists max_diff,
     verdict out_data in0_data in1_data in2_data size = Failure max_diff).
Proof.
  intros Hc Hn lines. rewrite (verify_spec _ _ _ _ _ Hc).
  rewrite printed_mismatches_below_5.
  assert (E : filter (violating out_data in0_data in1_data in2_data)
                     (seq 0 (Nat.min 5 size)) =
              filter (fun i => negb (within_tolerance
                                       (deviation_at out_data in0_data in1_data in2_data i)))
                     (seq 0 (Nat.min 5 size))).
  { apply filter_ext_in. intros i Hi. apply in_seq in Hi.
    unfold violating. apply exceeds_within. apply Hn. lia. }
  rewrite E. fold lines. split; [reflexivity|]. split.
  - cbn [snd mismatch_lines filter is_mismatch].
    unfold mismatch_lines. rewrite filter_app. fold (mismatch_lines lines).
    unfold lines at 1. rewrite mismatch_lines_map. fold lines.
    unfold verdict. destruct (forallb _ _); simpl; now rewrite app_nil_r.
  - unfold verdict. destruct (forallb _ _); [now left | right; eauto].
Qed.

(** A run of six elements whose only mismatch is the last one, and a
    run of seven whose last two mismatch by the same amount. *)
Definition six_halves : list float := repeat half 6.
Definition seven_halves : list float := repeat half 7.
Definition output_6_last_off : list float := repeat half 5 ++ [F32.one].
Definition output_7_last_two_off : list float := repeat half 5 ++ [F32.one; F32.one].

(** C2 (the claim as stated fails).  When the only mismatch sits at
    index 5, nothing is printed for it, although it is the first
    mismatching element; and a run with one violating element and a run
    with two produce the same report, so the report holds no count. *)
Lemma first_five_mismatches_not_printed :
  mismatch_lines (snd (verify output_6_last_off six_halves six_halves six_halves 6)) <>
    first_five_mismatches output_6_last_off six_halves six_halves six_halves 6 /\
  snd (verify output_6_last_off six_halves six_halves six_halves 6) =
    snd (verify output_7_last_two_off seven_halves seven_halves seven_halves 7) /\
  List.length (violators output_6_last_off six_halves six_halves six_halves 0 6) = 1%nat /\
  List.length (violators output_7_last_two_off seven_halves seven_halves seven_halves 0 7) = 2%nat.
Proof.
  split; [|split; [|split]].
  - vm_compute. discriminate.
  - vm_compute. reflexivity.
  - vm_compute. reflexivity.
  - vm_compute. reflexivity.
Qed.

Lemma verify_prints_mismatches_below_index_5_witness :
  buffers_cover output_6_last_off six_halves six_halves six_halves 6 /\
  mismatch_lines (snd (verify output_6_last_off six_halves six_halves six_halves 6)) = [].
Proof.
  assert (H : buffers_cover output_6_last_off six_halves six_halves six_halves 6).
  { unfold buffers_cover. simpl. lia. }
  split; [exact H|].
  destruct (verify_prints_mismatches_below_index_5 _ _ _ _ _ H) as (_ & E & _).
  - intros i Hi.
    do 6 (destruct i as [|i]; [vm_compute; reflexivity|]). lia.
  - rewrite E. vm_compute. reflexivity.
Defined.

(* ================================================================== *)
(** * The shape inference of the custom operator *)
(* ================================================================== *)

Module CustomAddMulFacts.
Import CustomAddMul.

Lemma set_nth_output_0 outs d :
  nth_error (set_nth_output outs 0 d) 0 = Some d.
Proof. destruct outs; reflexivity. Qed.

Lemma set_nth_output_0_tail outs d i :
  nth_error (set_nth_output outs 0 d) (S i) = nth_error outs (S i).
Proof. destruct outs; [destruct i|]; reflexivity. Qed.

(** C5.  For a node with at least one input the inference succeeds
    and gives output 0 the element type and the partial shape of
    input 0; the inputs and the other outputs are left as they were.
    Nothing is read from the later inputs: whatever they are, and
    whether or not their shapes agree with input 0, the inference
    succeeds with the same outputs. *)
Theorem validate_and_infer_types_copies_input_0 (n : node) :
  (0 < get_input_size n)%nat ->
  exists d0 n',
    nth_error (inputs n) 0 = Some d0 /\
    validate_and_infer_types n = Some n' /\
    output_descriptor n' 0 = Some d0 /\
    inputs n' = inputs n /\
    (forall i, output_descriptor n' (S i) = output_descriptor n (S i)) /\
    (forall others : list descriptor,
       validate_and_infer_types {| inputs := d0 :: others; outputs := outputs n |} =
       Some {| inputs := d0 :: others; outputs := outputs n' |}).
Proof.
  intro H. destruct n as [ins outs]. unfold get_input_size in H. simpl in H.
  destruct ins as [|d0 rest]; [simpl in H; lia|].
  exists d0. eexists. split; [reflexivity|].
  split; [reflexivity|]. simpl. destruct d0 as [et ps]. simpl.
  split; [apply set_nth_output_0|].
  split; [reflexivity|].
  split; [intro i; apply set_nth_output_0_tail|].
  intro others. reflexivity.
Qed.

(** A node whose three inputs disagree in shape and in type. *)
Definition mixed_node : node :=
  {| inputs :=
       [ {| desc_type := f32;
            desc_shape := Ranked [ {| dim_min := 1; dim_max := Some 1%nat |};
                                   {| dim_min := 3; dim_max := Some 3%nat |} ] |};
         {| desc_type := i32; desc_shape := RankDynamic |};
         {| desc_type := f16;
            desc_shape := Ranked [ {| dim_min := 7; dim_max := None |} ] |} ];
     outputs := [] |}.

Lemma validate_and_infer_types_copies_input_0_witness :
  (0 < get_input_size mixed_node)%nat /\
  exists n', validate_and_infer_types mixed_node = Some n' /\
             output_descriptor n' 0 = nth_error (inputs mixed_node) 0.
Proof.
  assert (H : (0 < get_input_size mixed_node)%nat) by (vm_compute; lia).
  split; [exact H|].
  destruct (validate_and_infer_types_copies_input_0 mixed_node H)
    as (d0 & n' & E0 & Ev & Eo & _).
  exists n'. split; [exact Ev|]. now rewrite Eo, E0.
Defined.

End CustomAddMulFacts.

(* ================================================================== *)
(** * Doubling a float *)
(* ================================================================== *)

(** [x + x] and [2 * x] are the same float: both are exact, or both
    overflow.  The proof follows the two operations through the
    rounding of the format. *)
Module Doubling.

Lemma fexp_eq z : SpecFloat.fexp F32.prec F32.emax z = Z.max (z - 24) (-149).
Proof. reflexivity. Qed.

(** Rounding a mantissa that already sits at its exponent. *)
Lemma round_exact s m e :
  SpecFloat.fexp F32.prec F32.emax (Zpos (digits2_pos m) + e) = e ->
  binary_round_aux F32.prec F32.emax s (Zpos m) e loc_Exact =
  if e <=? 104 then S754_finite s m e else S754_infinity s.
Proof.
  intro H. unfold binary_round_aux, shr_fexp.
  cbn [Zdigits2]. rewrite H, Z.sub_diag.
  cbn [shr shr_record_of_loc shr_m loc_of_shr_record round_nearest_even].
  cbn [Zdigits2]. rewrite H, Z.sub_diag.
  reflexivity.
Qed.

(** Rounding a mantissa [M] that is [m] followed by [k] zero bits. *)
Lemma round_shifted (k : positive) s m M e :
  iter_pos shr_1 k {| shr_m := Zpos M; shr_r := false; shr_s := false |} =
    {| shr_m := Zpos m; shr_r := false; shr_s := false |} ->
  Zpos (digits2_pos M) = Zpos (digits2_pos m) + Zpos k ->
  SpecFloat.fexp F32.prec F32.emax (Zpos (digits2_pos m) + e) = e ->
  binary_round_aux F32.prec F32.emax s (Zpos M) (e - Zpos k) loc_Exact =
  if e <=? 104 then S754_finite s m e else S754_infinity s.
Proof.
  intros Hi Hd H. unfold binary_round_aux, shr_fexp.
  cbn [Zdigits2]. rewrite Hd.
  replace (Z.pos (digits2_pos m) + Z.pos k + (e - Z.pos k))
    with (Z.pos (digits2_pos m) + e) by lia.
  rewrite H. replace (e - (e - Z.pos k)) with (Zpos k) by lia.
  cbn [shr shr_record_of_loc]. rewrite Hi.
  cbn [shr_m loc_of_shr_record round_nearest_even].
  replace (e - Z.pos k + Z.pos k) with e by lia.
  cbn [Zdigits2]. rewrite H, Z.sub_diag.
  reflexivity.
Qed.

Lemma add_self_finite s m e :
  SpecFloat.bounded F32.prec F32.emax m e = true ->
  F32.add (S754_finite s m e) (S754_finite s m e) =
  F32.mul F32.two (S754_finite s m e).
Proof.
  intro Hb. unfold SpecFloat.bounded, canonical_mantissa in Hb.
  apply andb_true_iff in Hb. destruct Hb as [Hc He].
  apply Z.eqb_eq in Hc. apply Z.leb_le in He.
  change (F32.emax - F32.prec) with 104 in He.
  unfold F32.add, F32.mul, F32.two, SFadd, SFmul.
  rewrite Z.min_id.
  unfold shl_align at 1 2. rewrite Z.sub_diag. cbn [fst].
  replace (cond_Zopp s (Z.pos m) + cond_Zopp s (Z.pos m))
    with (cond_Zopp s (Zpos m~0))
    by (destruct s; simpl; now rewrite Pos.add_diag).
  assert (E : binary_normalize F32.prec F32.emax (cond_Zopp s (Z.pos m~0)) e false
              = binary_round F32.prec F32.emax s m~0 e)
    by (destruct s; reflexivity).
  rewrite E. clear E.
  cbn [xorb]. unfold binary_round.
  assert (Hd : Zpos (digits2_pos m~0) = Zpos (digits2_pos m) + 1)
    by (cbn [digits2_pos]; lia).
  rewrite Hd.
  pose proof Hc as Hc'. rewrite fexp_eq in Hc'.
  destruct (Z.eq_dec (Zpos (digits2_pos m)) 24) as [D|D].
  - (* a normal number: the exponent goes up by one *)
    assert (F1 : SpecFloat.fexp F32.prec F32.emax (Z.pos (digits2_pos m) + 1 + e) = e + 1)
      by (rewrite fexp_eq; lia).
    assert (F2 : SpecFloat.fexp F32.prec F32.emax (Z.pos (digits2_pos m) + (e + 1)) = e + 1)
      by (rewrite fexp_eq; lia).
    rewrite F1. unfold shl_align.
    replace (e + 1 - e) with 1 by lia. cbv iota beta.
    replace e with ((e + 1) - 1) at 1 by lia.
    rewrite (round_shifted 1 s m (m~0) (e + 1) eq_refl Hd F2).
    replace (-22 + e) with ((e + 1) - 23) by lia.
    rewrite (round_shifted 23 s m (8388608 * m) (e + 1) eq_refl);
      [reflexivity | | exact F2].
    cbn [Pos.mul digits2_pos]. lia.
  - (* a subnormal number: the mantissa doubles *)
    assert (E149 : e = -149) by lia. subst e.
    assert (F1 : SpecFloat.fexp F32.prec F32.emax (Z.pos (digits2_pos m) + 1 + -149) = -149)
      by (rewrite fexp_eq; lia).
    rewrite F1. unfold shl_align. cbv iota beta.
    rewrite Z.sub_diag. cbv iota beta.
    rewrite round_exact by (rewrite Hd; exact F1).
    replace (-22 + -149) with (-149 - 22) by lia.
    rewrite (round_shifted 22 s (m~0) (8388608 * m) (-149) eq_refl);
      [reflexivity | | rewrite Hd; exact F1].
    cbn [Pos.mul digits2_pos]. lia.
Qed.

Lemma add_self (x : float) :
  F32.valid x = true -> F32.add x x = F32.mul F32.two x.
Proof.
  destruct x as [s|s| |s m e]; intro H.
  - destruct s; reflexivity.
  - destruct s; reflexivity.
  - reflexivity.
  - now apply add_self_finite.
Qed.

End Doubling.

(* ================================================================== *)
(** * The fixed-seed fill *)
(* ================================================================== *)

Lemma store_app {A} (done todo : list A) (x v : A) :
  store (done ++ x :: todo) (List.length done) v = Some (done ++ v :: todo).
Proof.
  induction done as [|y done IH]; [reflexivity|].
  simpl. now rewrite IH.
Qed.

Section FillFacts.
Context `{rng : UniformRandom}.

Lemma draws_length n : forall g, List.length (draws n g) = n.
Proof.
  induction n as [|n IH]; intro g; [reflexivity|].
  simpl. destruct (draw g) as [v g']. simpl. now rewrite IH.
Qed.

(** The loop never writes outside the buffer, and when it has run
    the elements it visited are the values drawn, in order. *)
Lemma fill_loop_spec n : forall gen done todo,
  (n <= List.length todo)%nat ->
  fill_loop n (List.length done) gen (done ++ todo) =
  Some (done ++ draws n gen ++ skipn n todo).
Proof.
  induction n as [|n IH]; intros gen done todo Hn.
  - reflexivity.
  - destruct todo as [|x todo]; [simpl in Hn; lia|].
    cbn [fill_loop draws]. destruct (draw gen) as [v gen'].
    rewrite store_app.
    replace (done ++ v :: todo) with ((done ++ [v]) ++ todo)
      by now rewrite <- app_assoc.
    replace (S (List.length done)) with (List.length (done ++ [v]))
      by (rewrite length_app; simpl; lia).
    rewrite IH by (simpl in Hn; lia).
    now rewrite <- app_assoc.
Qed.

Lemma fill_tensor_spec (t : Tensor) :
  fill_tensor t =
  Some {| get_shape := get_shape t;
          data := draws (get_size t) (seed_engine 42) |}.
Proof.
  pose proof (fill_loop_spec (get_size t) (seed_engine 42) [] (data t)) as H.
  cbn [List.length app] in H. unfold fill_tensor. cbv zeta.
  rewrite H by (unfold get_size; lia).
  unfold get_size. now rewrite skipn_all, app_nil_r.
Qed.

Lemma draws_contract n : forall g,
  draw_contract ->
  Forall (fun x => F32.valid x = true /\ in_unit_interval x = true) (draws n g).
Proof.
  induction n as [|n IH]; intros g Hc; [constructor|].
  simpl. pose proof (Hc g) as Hg. destruct (draw g) as [v g'].
  constructor; [exact Hg | now apply IH].
Qed.

(** Two runs of draws from one engine agree wherever both reach. *)
Lemma draws_agree n : forall m g i x y,
  nth_error (draws n g) i = Some x ->
  nth_error (draws m g) i = Some y ->
  x = y.
Proof.
  induction n as [|n IH]; intros m g i x y Hx Hy.
  - destruct i; discriminate.
  - destruct m as [|m]; [destruct i; discriminate|].
    simpl in Hx, Hy. destruct (draw g) as [v g'].
    destruct i as [|i]; simpl in Hx, Hy.
    + congruence.
    + exact (IH m g' i x y Hx Hy).
Qed.

End FillFacts.

Section FillClaims.
Context `{rng : UniformRandom}.

(** C7.  [fill_tensor] seeds its generator with 42 on every call, so
    what it writes depends on the number of elements alone: two
    tensors with as many elements receive the same values, the first
    draws of that generator, whatever they held before; and every
    value written lies in [0,1), as the distribution promises. *)
Theorem fill_tensor_deterministic (t1 t2 : Tensor) :
  draw_contract ->
  get_size t1 = get_size t2 ->
  exists values,
    values = draws (get_size t1) (seed_engine 42) /\
    fill_tensor t1 = Some {| get_shape := get_shape t1; data := values |} /\
    fill_tensor t2 = Some {| get_shape := get_shape t2; data := values |} /\
    Forall (fun x => in_unit_interval x = true) values.
Proof.
  intros Hc Hs. exists (draws (get_size t1) (seed_engine 42)).
  split; [reflexivity|]. rewrite !fill_tensor_spec, Hs.
  split; [reflexivity|]. split; [reflexivity|].
  eapply Forall_impl; [|apply draws_contract; exact Hc].
  intros x [_ H]. exact H.
Qed.

(** C9.  The three fills restart the generator from the seed 42, so
    each input holds the first draws of one and the same sequence:
    wherever the three inputs have an element, the three elements are
    equal, and the reference value [(x + x) * x] of that element is
    [2 * x * x] for the common value [x]. *)
Theorem filled_inputs_are_identical (input0 input1 input2 : Tensor) :
  draw_contract ->
  exists f0 f1 f2,
    fill_inputs input0 input1 input2 = (Ok (f0, f1, f2), []) /\
    data f0 = draws (get_size input0) (seed_engine 42) /\
    data f1 = draws (get_size input1) (seed_engine 42) /\
    data f2 = draws (get_size input2) (seed_engine 42) /\
    forall i x0 x1 x2,
      nth_error (data f0) i = Some x0 ->
      nth_error (data f1) i = Some x1 ->
      nth_error (data f2) i = Some x2 ->
      x0 = x1 /\ x1 = x2 /\
      expected_value x0 x1 x2 = F32.mul (F32.mul F32.two x0) x0.
Proof.
  intro Hc. unfold fill_inputs. rewrite !fill_tensor_spec.
  do 3 eexists. split; [reflexivity|]. cbn [data].
  repeat (split; [reflexivity|]).
  intros i x0 x1 x2 H0 H1 H2.
  assert (E01 : x0 = x1) by exact (draws_agree _ _ _ _ _ _ H0 H1).
  assert (E12 : x1 = x2) by exact (draws_agree _ _ _ _ _ _ H1 H2).
  subst x1 x2. repeat split.
  unfold expected_value. rewrite Doubling.add_self; [reflexivity|].
  pose proof (draws_contract (get_size input0) (seed_engine 42) Hc) as Hall.
  rewrite Forall_forall in Hall.
  apply (Hall x0). eapply nth_error_In. exact H0.
Qed.

End FillClaims.

(* ================================================================== *)
(** * An instance of the random number library *)
(* ================================================================== *)

(** The Mersenne Twister [std::mt19937] and a
    [uniform_real_distribution<float>] that draws one word. *)
Module MT19937.

Definition mask32 : Z := Z.ones 32.
Definition upper_mask : Z := 2147483648.
Definition lower_mask : Z := 2147483647.

Record state := { words : list Z; index : nat }.

Fixpoint init_words (count : nat) (i prev : Z) : list Z :=
  match count with
  | O => []
  | S count' =>
      let x := Z.land (1812433253 * Z.lxor prev (Z.shiftr prev 30) + i) mask32 in
      x :: init_words count' (i + 1) x
  end.

Definition seed (s : Z) : state :=
  let x0 := Z.land s mask32 in
  {| words := x0 :: init_words 623 1 x0; index := 624 |}.

Fixpoint set_word (l : list Z) (i : nat) (x : Z) : list Z :=
  match l, i with
  | [], _ => []
  | _ :: rest, O => x :: rest
  | y :: rest, S i' => y :: set_word rest i' x
  end.

Definition twist_word (x_i x_next x_m : Z) : Z :=
  let y := Z.lor (Z.land x_i upper_mask) (Z.land x_next lower_mask) in
  Z.lxor (Z.lxor x_m (Z.shiftr y 1)) (if Z.odd y then 2567483615 else 0).

Fixpoint twist_loop (count i : nat) (l : list Z) : list Z :=
  match count with
  | O => l
  | S count' =>
      let x := twist_word (nth i l 0) (nth ((i + 1) mod 624) l 0)
                          (nth ((i + 397) mod 624) l 0) in
      twist_loop count' (S i) (set_word l i x)
  end.

Definition temper (y : Z) : Z :=
  let y := Z.lxor y (Z.land (Z.shiftr y 11) 4294967295) in
  let y := Z.lxor y (Z.land (Z.shiftl y 7) 2636928640) in
  let y := Z.lxor y (Z.land (Z.shiftl y 15) 4022730752) in
  let y := Z.lxor y (Z.shiftr y 18) in
  Z.land y mask32.

(** [gen()] *)
Definition next (st : state) : Z * state :=
  let st := if (624 <=? index st)%nat
            then {| words := twist_loop 624 0 (words st); index := 0 |}
            else st in
  (temper (nth (index st) (words st) 0),
   {| words := words st; index := S (index st) |}).

(** The word as a float, divided by 2^32, and kept below one. *)
Definition two_to_32 : float := S754_finite false 8388608 9.
Definition below_one : float := S754_finite false 16777215 (-24).

Definition canonical (word : Z) : float :=
  let sum := binary_normalize F32.prec F32.emax word 0 false in
  let r := F32.div sum two_to_32 in
  if F32.ge r F32.one then below_one else r.

(** A last test holds the distribution to its contract whatever the
    division returned. *)
Definition in_contract (x : float) : float :=
  if F32.valid x && in_unit_interval x then x else F32.zero.

Definition uniform (st : state) : float * state :=
  let (word, st') := next st in (in_contract (canonical word), st').

#[export] Instance random : UniformRandom :=
  {| engine := state; seed_engine := seed; draw := uniform |}.

End MT19937.

(* ================================================================== *)
(** * The stress loop *)
(* ================================================================== *)

Lemma bind_call_returns {A B} (op : api) (a : A) (f : A -> M B) :
  bind (call op (Returns a)) f = (fst (f a), Call op None :: snd (f a)).
Proof. unfold call. rewrite bind_ok. reflexivity. Qed.

Lemma bind_call_raises {A B} (op : api) (e : exn) (f : A -> M B) :
  bind (call op (Raises e)) f = (Throw e, [Call op (Some e)]).
Proof. reflexivity. Qed.

(** The lines among the events. *)
Definition is_line (ev : event) : bool :=
  match ev with Call _ _ => false | _ => true end.

Definition lines (t : list event) : list event := filter is_line t.

Section StressFacts.
Variable env : Env.

(** Ticks between the reading of [start] and reading [j]. *)
Definition elapsed (j : nat) : Z := clock_now env j - clock_now env 0.

(** The check after iteration [j] finds the thirty seconds over. *)
Definition reached (j : nat) : bool := thirty_seconds <=? elapsed j.

Definition progress_line (j : nat) : list event :=
  if Z.rem (Z.of_nat j) 10 =? 0
  then [Progress (Z.of_nat j) (elapsed j)] else [].

(** What the loop does from [n] completed iterations on, when the
    check succeeds after [count] more iterations and one. *)
Fixpoint loop_events (count n : nat) : list event :=
  match count with
  | O => [Call Infer None]
  | S count' =>
      Call Infer None :: progress_line (S n) ++ loop_events count' (S n)
  end.

Hypothesis infer_returns : forall j, request_infer env j = Returns tt.

Lemma stress_loop_run d : forall n fuel k,
  (n < k <= n + d)%nat -> reached k = true ->
  Z.of_nat k <= INT_MAX -> (d <= fuel)%nat ->
  exists m,
    (n < m <= k)%nat /\ reached m = true /\
    (forall j, (n < j < m)%nat -> reached j = false) /\
    stress_loop env fuel (clock_now env 0) n =
      (Ok (Z.of_nat m), loop_events (m - n - 1) n).
Proof.
  induction d as [|d IH]; intros n fuel k Hk Hr Hmax Hf; [lia|].
  destruct fuel as [|fuel]; [lia|].
  cbn [stress_loop]. rewrite infer_returns, bind_call_returns.
  unfold int_succ.
  destruct (Z.of_nat n <? INT_MAX) eqn:E; [|apply Z.ltb_ge in E; lia].
  rewrite bind_ret.
  replace (Z.of_nat n + 1) with (Z.of_nat (S n)) by lia.
  fold (elapsed (S n)). fold (reached (S n)).
  destruct (reached (S n)) eqn:R.
  - exists (S n). repeat split; try lia; [exact R|].
    replace (S n - n - 1)%nat with 0%nat by lia. reflexivity.
  - assert (Hk' : (S n < k <= S n + d)%nat).
    { destruct (Nat.eq_dec k (S n)) as [->|]; [congruence | lia]. }
    destruct (IH (S n) fuel k Hk' Hr Hmax ltac:(lia))
      as (m & Hm & Rm & Hbefore & Hrun).
    exists m. repeat split; try lia; [exact Rm | |].
    + intros j Hj. destruct (Nat.eq_dec j (S n)) as [->|]; [exact R|].
      apply Hbefore. lia.
    + replace (m - n - 1)%nat with (S (m - S n - 1)) by lia.
      cbn [loop_events]. unfold progress_line at 1.
      destruct (Z.rem (Z.of_nat (S n)) 10 =? 0).
      * rewrite bind_print, Hrun. reflexivity.
      * rewrite bind_ret, Hrun. reflexivity.
Qed.

(** The lines of the loop: a progress line after each iteration but
    the last whose number is a multiple of ten. *)
Definition progress_lines (count n : nat) : list event :=
  map (fun j => Progress (Z.of_nat j) (elapsed j))
      (filter (fun j => Z.rem (Z.of_nat j) 10 =? 0) (seq (S n) count)).

Lemma lines_loop_events count : forall n,
  lines (loop_events count n) = progress_lines count n.
Proof.
  unfold progress_lines.
  induction count as [|count IH]; intro n; [reflexivity|].
  cbn [loop_events lines filter is_line seq].
  unfold lines in *. rewrite filter_app, IH. unfold progress_line.
  destruct (Z.rem (Z.of_nat (S n)) 10 =? 0); reflexivity.
Qed.

End StressFacts.

Definition stress_start_line : event :=
  Stdout (newline ++ "Starting stress test for 30 seconds...").

(** The whole stress test, when every inference returns and some check
    [k] within the range of an [int] finds the thirty seconds over:
    the loop ends at the first such check [n]. *)
Lemma stress_test_run (env : Env) (k fuel : nat) :
  (forall j, request_infer env j = Returns tt) ->
  (1 <= k)%nat -> reached env k = true ->
  Z.of_nat k <= INT_MAX -> (k <= fuel)%nat ->
  exists n,
    (1 <= n <= k)%nat /\ reached env n = true /\
    (forall j, (0 < j < n)%nat -> reached env j = false) /\
    stress_loop env fuel (clock_now env 0) 0 =
      (Ok (Z.of_nat n), loop_events env (n - 1) 0) /\
    stress_test env fuel =
      (Ok tt, stress_start_line :: loop_events env (n - 1) 0 ++ [Total (Z.of_nat n)]).
Proof.
  intros Hi Hk Hr Hmax Hf.
  destruct (stress_loop_run env Hi k 0 fuel k ltac:(lia) Hr Hmax Hf)
    as (n & Hn & Rn & Hbefore & Hrun).
  replace (n - 0 - 1)%nat with (n - 1)%nat in Hrun by lia.
  exists n. repeat split; try lia; try assumption.
  unfold stress_test. rewrite bind_print. cbv zeta. rewrite Hrun.
  rewrite bind_ok. reflexivity.
Qed.

(** C8 (as amended).  Under the same conditions the stress test prints
    its opening line, then a progress line, with the count and the
    elapsed time, after each completed iteration whose number is a
    multiple of ten except the last iteration of the loop, and then the
    total [n] once: the check that ends the loop comes before the
    progress line. *)
Theorem stress_test_lines (env : Env) (k fuel : nat) :
  (forall j, request_infer env j = Returns tt) ->
  (1 <= k)%nat -> thirty_seconds <= elapsed env k ->
  Z.of_nat k <= INT_MAX -> (k <= fuel)%nat ->
  exists n,
    (1 <= n <= k)%nat /\
    fst (stress_loop env fuel (clock_now env 0) 0) = Ok (Z.of_nat n) /\
    lines (snd (stress_test env fuel)) =
      stress_start_line ::
      map (fun j => Progress (Z.of_nat j) (elapsed env j))
          (filter (fun j => Z.rem (Z.of_nat j) 10 =? 0) (seq 1 (n - 1))) ++
      [Total (Z.of_nat n)].
Proof.
  intros Hi Hk Hr Hmax Hf.
  assert (Hr' : reached env k = true) by (apply Z.leb_le; exact Hr).
  destruct (stress_test_run env k fuel Hi Hk Hr' Hmax Hf)
    as (n & Hn & Rn & Hbefore & Hloop & Htest).
  exists n. rewrite Hloop, Htest. cbn [fst snd].
  repeat split; try lia.
  unfold lines. cbn [filter is_line stress_start_line]. rewrite filter_app.
  fold (lines (loop_events env (n - 1) 0)). rewrite lines_loop_events.
  reflexivity.
Qed.

(** ** A steady engine *)

Definition tensor_2x2 (values : list float) : Tensor :=
  {| get_shape := [1; 1; 2; 2]%nat; data := values |}.

(** Every call returns, each iteration takes [period] ticks, and the
    output buffer holds [output]. *)
Definition steady_env (period : Z) (output : list float) : Env :=
  {| core_ctor := Returns tt;
     core_add_extension := Returns tt;
     core_get_available_devices := Returns ["CPU"; "GPU.0"]%string;
     core_read_model := fun _ => Returns tt;
     core_compile_model := fun _ _ => Returns tt;
     create_infer_request := Returns tt;
     request_get_input_tensor := fun _ => Returns (tensor_2x2 (repeat F32.zero 4));
     request_infer := fun _ => Returns tt;
     request_get_output_tensor := fun _ => Returns (tensor_2x2 output);
     clock_now := fun k => Z.of_nat k * period |}.

(** Three seconds for each iteration. *)
Definition three_seconds : Z := 3000000000.
Definition slow_env : Env := steady_env three_seconds (repeat F32.zero 4).

Lemma stress_test_lines_witness :
  exists n, fst (stress_loop slow_env 12 (clock_now slow_env 0) 0) = Ok (Z.of_nat n) /\
            (1 <= n <= 12)%nat.
Proof.
  destruct (stress_test_lines slow_env 12 12) as (n & Hn & Hl & _).
  - reflexivity.
  - lia.
  - vm_compute. discriminate.
  - vm_compute. discriminate.
  - lia.
  - exists n. split; [exact Hl | exact Hn].
Defined.

(** The reading of the specification: a progress line after every
    tenth completed iteration. *)
Definition progress_after_every_tenth (env : Env) (t : list event) (n : nat) : Prop :=
  forall j, (1 <= j <= n)%nat -> Z.rem (Z.of_nat j) 10 = 0 ->
            In (Progress (Z.of_nat j) (elapsed env j)) t.

(** C8 (the claim as stated fails).  With three seconds for each
    iteration the loop ends after the tenth, and no progress line is
    printed for that tenth iteration. *)
Lemma no_progress_line_for_last_iteration :
  exists t,
    stress_test slow_env 10 = (Ok tt, t) /\
    In (Total 10) t /\
    ~ progress_after_every_tenth slow_env t 10.
Proof.
  eexists. split; [vm_compute; reflexivity|]. split.
  - simpl. intuition.
  - intro H. specialize (H 10%nat ltac:(lia) eq_refl).
    simpl in H. intuition discriminate.
Qed.

(* ================================================================== *)
(** * Exceptions and the exit status *)
(* ================================================================== *)

(** The event is not a call that raised. *)
Definition quiet (ev : event) : bool :=
  match ev with Call _ (Some _) => false | _ => true end.

(** A computation is regular when an exception on its way out was
    raised by the last thing it did, a call into the engine, and no
    call before that raised; and when, ending otherwise, no call
    raised at all. *)
Definition regular {A} (m : M A) : Prop :=
  match m with
  | (Throw e, t) =>
      exists pre op, t = pre ++ [Call op (Some e)] /\ forallb quiet pre = true
  | (_, t) => forallb quiet t = true
  end.

Lemma regular_ret {A} (a : A) : regular (ret a).
Proof. reflexivity. Qed.

Lemma regular_print (ev : event) : quiet ev = true -> regular (print ev).
Proof. intro H. simpl. now rewrite H. Qed.

Lemma regular_call {A} (op : api) (r : result A) : regular (call op r).
Proof.
  destruct r as [a|e]; simpl; [reflexivity|].
  exists [], op. split; reflexivity.
Qed.

Lemma regular_defined {A} (o : option A) : regular (defined o).
Proof. destruct o; reflexivity. Qed.

Lemma regular_bind {A B} (m : M A) (f : A -> M B) :
  regular m -> (forall a, regular (f a)) -> regular (bind m f).
Proof.
  intros Hm Hf. destruct m as [[a|e| |] t]; simpl in *; try assumption.
  specialize (Hf a). destruct (f a) as [[b|e| |] t']; simpl in *;
    try (rewrite forallb_app, Hm, Hf; reflexivity).
  destruct Hf as (pre & op & -> & Hpre).
  exists (t ++ pre), op. split; [now rewrite app_assoc|].
  now rewrite forallb_app, Hm, Hpre.
Qed.

Ltac regular_step :=
  first [ apply regular_ret
        | apply regular_call
        | apply regular_defined
        | apply regular_print; reflexivity
        | apply regular_bind; [|intros]
        | match goal with
          | |- regular (match ?x with _ => _ end) => destruct x
          end ].

Lemma regular_verify_loop out_data in0_data in1_data in2_data n :
  forall i max_diff success,
    regular (verify_loop out_data in0_data in1_data in2_data n i max_diff success).
Proof.
  induction n as [|n IH]; intros i md s; cbn [verify_loop].
  - apply regular_ret.
  - repeat regular_step; apply IH.
Qed.

Lemma regular_verify out_data in0_data in1_data in2_data size :
  regular (verify out_data in0_data in1_data in2_data size).
Proof.
  unfold verify. regular_step; [regular_step|].
  regular_step; [apply regular_verify_loop|].
  repeat regular_step.
Qed.

Lemma regular_int_succ (i : Z) : regular (int_succ i).
Proof. unfold int_succ. destruct (_ <? _); reflexivity. Qed.

Lemma regular_stress_loop env fuel : forall start n,
  regular (stress_loop env fuel start n).
Proof.
  induction fuel as [|fuel IH]; intros start n; cbn [stress_loop].
  - reflexivity.
  - regular_step; [regular_step|].
    regular_step; [apply regular_int_succ|].
    repeat regular_step; apply IH.
Qed.

Ltac regular_prog :=
  repeat first [ apply regular_verify
               | apply regular_stress_loop
               | regular_step ].

Section MainFacts.
Context `{rng : UniformRandom}.
Variable env : Env.

Lemma regular_after_devices fuel : regular (after_devices env fuel).
Proof.
  unfold after_devices, with_inputs, fill_inputs, stress_test.
  regular_prog.
Qed.

Lemma regular_main_body fuel : regular (main_body env fuel).
Proof.
  unfold main_body, check_gpu.
  repeat first [ apply regular_after_devices | regular_step ].
Qed.

End MainFacts.

(** Reading an exit back: its status is 0 or 1, and it tells how the
    body of [main] ended. *)
Lemma main_exit_inversion `{rng : UniformRandom} (env : Env) (fuel : nat)
        (status : Z) (t : list event) :
  main env fuel = (Exit status, t) ->
  (status = 0 /\ main_body env fuel = (Ok tt, t) /\ forallb quiet t = true) \/
  (status = 1 /\
   exists e op pre,
     main_body env fuel = (Throw e, pre ++ [Call op (Some e)]) /\
     forallb quiet pre = true /\
     t = pre ++ [Call op (Some e); Stderr ("Exception: " ++ e)]).
Proof.
  unfold main. pose proof (regular_main_body env fuel) as R.
  destruct (main_body env fuel) as [[[]|e| |] t0]; simpl in R;
    intro H; inversion H; subst.
  - left. auto.
  - right. split; [reflexivity|].
    destruct R as (pre & op & -> & Hpre).
    exists e, op, pre. repeat split; [exact Hpre|].
    now rewrite <- app_assoc.
Qed.

(** An engine whose result is wrong everywhere: the verification
    reports a failure and the process still exits with status 0. *)
Definition wrong_env : Env := steady_env three_seconds (repeat F32.one 4).

(** An engine that cannot compile for the device: the process exits
    with status 1 after the message. *)
Definition no_compile_env : Env :=
  {| core_ctor := Returns tt;
     core_add_extension := Returns tt;
     core_get_available_devices := Returns ["CPU"]%string;
     core_read_model := fun _ => Returns tt;
     core_compile_model := fun _ _ => Raises "Device with GPU name is not registered";
     create_infer_request := Returns tt;
     request_get_input_tensor := fun _ => Returns (tensor_2x2 (repeat F32.zero 4));
     request_infer := fun _ => Returns tt;
     request_get_output_tensor := fun _ => Returns (tensor_2x2 (repeat F32.zero 4));
     clock_now := fun k => Z.of_nat k * three_seconds |}.

Example main_exits_1_when_compile_raises :
  @main MT19937.random no_compile_env 0 =
  (Exit 1,
   [ Call CoreCtor None; Call AddExtension None;
     Stdout "Registered CustomAddMul extension.";
     Call GetAvailableDevices None;
     Stderr "GPU not found! This tutorial requires an Intel GPU.";
     Stderr "Available devices: CPU ";
     Stdout "Loading custom layer config from custom_add_mul.xml...";
     Stdout "Reading model from model.xml...";
     Call (ReadModel "model.xml") None;
     Stdout "Compiling model on GPU...";
     Call (CompileModel "GPU" config)
          (Some "Device with GPU name is not registered"%string);
     Stderr "Exception: Device with GPU name is not registered" ]).
Proof. vm_compute. reflexivity. Qed.

(* ================================================================== *)
(** * The device check *)
(* ================================================================== *)

Lemma string_app_assoc (a b c : string) :
  ((a ++ b) ++ c)%string = (a ++ (b ++ c))%string.
Proof. induction a as [|x a IH]; simpl; [reflexivity | now rewrite IH]. Qed.

Lemma string_app_empty (a : string) : (a ++ "")%string = a.
Proof. induction a as [|x a IH]; simpl; [reflexivity | now rewrite IH]. Qed.

Lemma prefix_app (p s : string) :
  String.prefix p s = true <-> exists post, s = (p ++ post)%string.
Proof.
  revert s. induction p as [|a p IH]; intro s.
  - split; [intros _; now exists s | intros _; destruct s; reflexivity].
  - destruct s as [|b s]; simpl.
    + split; [discriminate | intros [post H]; discriminate].
    + destruct (ascii_dec a b) as [->|N].
      * rewrite IH. split; intros [post H]; exists post; congruence.
      * split; [discriminate | intros [post H]; congruence].
Qed.

(** [find] tells whether the pattern occurs. *)
Lemma string_find_some (s pat : string) :
  forall n, string_find s pat = Some n -> contains s pat.
Proof.
  induction s as [|c s IH]; intro n; cbn [string_find].
  - destruct (String.prefix pat "") eqn:P; [|discriminate]. intros _.
    apply prefix_app in P. destruct P as [post P].
    exists ""%string, post. exact P.
  - destruct (String.prefix pat (String c s)) eqn:P.
    + intros _. apply prefix_app in P. destruct P as [post P].
      exists ""%string, post. exact P.
    + destruct (string_find s pat) as [k|]; [|discriminate]. intros _.
      destruct (IH k eq_refl) as (pre & post & E).
      exists (String c pre), post. simpl. now rewrite E.
Qed.

Lemma string_find_none_not (s pat : string) :
  string_find s pat = None -> ~ contains s pat.
Proof.
  induction s as [|c s IH]; cbn [string_find].
  - destruct (String.prefix pat "") eqn:P; [discriminate|].
    intros _ (pre & post & H).
    destruct pre; [|discriminate]. simpl in H.
    assert (String.prefix pat "" = true) by (apply prefix_app; eauto).
    congruence.
  - destruct (String.prefix pat (String c s)) eqn:P; [discriminate|].
    destruct (string_find s pat) as [k|]; [discriminate|].
    intros _ (pre & post & E). destruct pre as [|c' pre]; simpl in E.
    + assert (String.prefix pat (String c s) = true)
        by (apply prefix_app; eauto).
      congruence.
    + injection E as _ E. apply (IH eq_refl). now exists pre, post.
Qed.

Lemma string_find_none (s pat : string) :
  string_find s pat = None <-> ~ contains s pat.
Proof.
  split; [apply string_find_none_not|].
  intro H. destruct (string_find s pat) as [n|] eqn:F; [|reflexivity].
  exfalso. apply H. exact (string_find_some s pat n F).
Qed.

(** The loop finds no GPU exactly when no name contains ["GPU"]. *)
Lemma find_gpu_false (devices : list string) :
  find_gpu devices = false <->
  forall d, In d devices -> ~ contains d "GPU".
Proof.
  induction devices as [|d0 devices IH]; simpl.
  - split; [intros _ d [] | reflexivity].
  - destruct (string_find d0 "GPU") as [n|] eqn:F.
    + split; [discriminate|]. intro H. exfalso.
      apply (H d0); [now left|]. exact (string_find_some _ _ _ F).
    + rewrite IH. split.
      * intros H d [<-|Hd]; [now apply string_find_none_not | now apply H].
      * intros H d Hd. apply H. now right.
Qed.

(** The names of the warning, each followed by a space. *)
Definition names_with_spaces (devices : list string) : string :=
  fold_right (fun d rest => (d ++ " " ++ rest)%string) ""%string devices.

Lemma available_devices_line_eq (devices : list string) :
  available_devices_line devices =
  ("Available devices: " ++ names_with_spaces devices)%string.
Proof.
  unfold available_devices_line.
  generalize "Available devices: "%string as line.
  induction devices as [|d devices IH]; intro line; cbn [fold_left names_with_spaces fold_right].
  - now rewrite string_app_empty.
  - rewrite IH. fold (names_with_spaces devices).
    now rewrite !string_app_assoc.
Qed.

Lemma names_with_spaces_contains (devices : list string) (d : string) :
  In d devices -> contains (names_with_spaces devices) d.
Proof.
  induction devices as [|d0 devices IH]; intros []; cbn [names_with_spaces fold_right];
    fold (names_with_spaces devices).
  - subst d0. exists ""%string, (" " ++ names_with_spaces devices)%string. reflexivity.
  - destruct (IH H) as (pre & post & E).
    exists (d0 ++ " " ++ pre)%string, post. rewrite E.
    now rewrite !string_app_assoc.
Qed.

Lemma available_devices_line_lists (devices : list string) (d : string) :
  In d devices -> contains (available_devices_line devices) d.
Proof.
  intro H. rewrite available_devices_line_eq.
  destruct (names_with_spaces_contains devices d H) as (pre & post & E).
  exists ("Available devices: " ++ pre)%string, post. rewrite E.
  now rewrite !string_app_assoc.
Qed.

(** [m] with the events [t] before its own. *)
Definition after {A} (t : list event) (m : M A) : M A := (fst m, t ++ snd m).

Lemma bind_print_after {B} (ev : event) (f : unit -> M B) :
  bind (print ev) f = after [ev] (f tt).
Proof. apply bind_print. Qed.

Lemma bind_call_after {A B} (op : api) (a : A) (f : A -> M B) :
  bind (call op (Returns a)) f = after [Call op None] (f a).
Proof. apply bind_call_returns. Qed.

Lemma after_after {A} (t t' : list event) (m : M A) :
  after t (after t' m) = after (t ++ t') m.
Proof. unfold after. simpl. now rewrite app_assoc. Qed.

Lemma bind_after {A B} (t : list event) (m : M A) (f : A -> M B) :
  bind (after t m) f = after t (bind m f).
Proof.
  destruct m as [[a|e| |] t']; unfold after; simpl;
    try reflexivity.
  destruct (f a) as [r t'']. simpl. now rewrite app_assoc.
Qed.

(** Runs the prints and the calls that return at the head of a
    program. *)
Ltac run_prog :=
  repeat first [ rewrite bind_print_after
               | rewrite bind_call_after
               | rewrite bind_ret
               | rewrite after_after ].

Definition setup_events : list event :=
  [ Call CoreCtor None; Call AddExtension None;
    Stdout "Registered CustomAddMul extension.";
    Call GetAvailableDevices None ].

Section Setup.
Context `{rng : UniformRandom}.
Variable env : Env.

(** [main] up to the device check, when the engine starts. *)
Lemma main_body_after_setup (fuel : nat) (devices : list string) :
  core_ctor env = Returns tt ->
  core_add_extension env = Returns tt ->
  core_get_available_devices env = Returns devices ->
  main_body env fuel =
  after (setup_events ++ (if find_gpu devices then [] else gpu_warning devices))
        (after_devices env fuel).
Proof.
  intros H1 H2 H3. unfold main_body.
  rewrite H1, bind_call_after, H2, bind_call_after, bind_print_after, H3,
    bind_call_after.
  unfold check_gpu. destruct (find_gpu devices); cbn [negb].
  - rewrite bind_ret, !after_after. reflexivity.
  - rewrite bind_print_after, bind_after, bind_print_after, !after_after.
    reflexivity.
Qed.

(** What follows the device check starts by loading the model. *)
Lemma after_devices_starts_loading (fuel : nat) :
  exists raised rest,
    snd (after_devices env fuel) =
    Stdout "Loading custom layer config from custom_add_mul.xml..." ::
    Stdout "Reading model from model.xml..." ::
    Call (ReadModel "model.xml") raised :: rest.
Proof.
  unfold after_devices. rewrite !bind_print_after.
  destruct (core_read_model env model_xml) as [[]|e].
  - rewrite bind_call_after, !after_after. cbn [after snd app]. eauto.
  - rewrite bind_call_raises, !after_after. cbn [after snd app]. eauto.
Qed.

(** Without a GPU in the list: the warning, the list of the devices,
    and then the steps that follow the device check. *)
Lemma no_gpu_warns (fuel : nat) (devices : list string) :
  core_ctor env = Returns tt ->
  core_add_extension env = Returns tt ->
  core_get_available_devices env = Returns devices ->
  (forall d, In d devices -> ~ contains d "GPU") ->
  main_body env fuel =
    (fst (after_devices env fuel),
     (setup_events ++ gpu_warning devices) ++ snd (after_devices env fuel)) /\
  gpu_warning devices =
    [ Stderr "GPU not found! This tutorial requires an Intel GPU.";
      Stderr ("Available devices: " ++ names_with_spaces devices) ] /\
  (forall d, In d devices -> contains (available_devices_line devices) d) /\
  exists raised rest,
    snd (after_devices env fuel) =
    Stdout "Loading custom layer config from custom_add_mul.xml..." ::
    Stdout "Reading model from model.xml..." ::
    Call (ReadModel "model.xml") raised :: rest.
Proof.
  intros H1 H2 H3 Hno.
  rewrite (main_body_after_setup fuel devices H1 H2 H3).
  apply find_gpu_false in Hno. rewrite Hno.
  split; [reflexivity|].
  split; [unfold gpu_warning; now rewrite available_devices_line_eq|].
  split; [apply available_devices_line_lists|].
  apply after_devices_starts_loading.
Qed.

(** With a GPU in the list the same steps follow, without the
    warning. *)
Lemma gpu_found_continues (fuel : nat) (devices : list string) :
  core_ctor env = Returns tt ->
  core_add_extension env = Returns tt ->
  core_get_available_devices env = Returns devices ->
  find_gpu devices = true ->
  main_body env fuel =
    (fst (after_devices env fuel), setup_events ++ snd (after_devices env fuel)).
Proof.
  intros H1 H2 H3 Hg.
  rewrite (main_body_after_setup fuel devices H1 H2 H3), Hg.
  now rewrite app_nil_r.
Qed.

End Setup.

(* ================================================================== *)
(** * The spatial dimensions and a complete run *)
(* ================================================================== *)

Definition acquire_events : list event :=
  [ Stdout "Loading custom layer config from custom_add_mul.xml...";
    Stdout "Reading model from model.xml...";
    Call (ReadModel "model.xml") None;
    Stdout "Compiling model on GPU...";
    Call (CompileModel "GPU" config) None;
    Call CreateInferRequest None;
    Call (GetInputTensor 0) None;
    Call (GetInputTensor 1) None;
    Call (GetInputTensor 2) None ].

(** The engine starts, loads and compiles the model and hands out the
    three input tensors. *)
Definition inputs_acquired (env : Env) (input0 input1 input2 : Tensor) : Prop :=
  core_ctor env = Returns tt /\
  core_add_extension env = Returns tt /\
  (exists devices, core_get_available_devices env = Returns devices) /\
  core_read_model env model_xml = Returns tt /\
  core_compile_model env "GPU" config = Returns tt /\
  create_infer_request env = Returns tt /\
  request_get_input_tensor env 0 = Returns input0 /\
  request_get_input_tensor env 1 = Returns input1 /\
  request_get_input_tensor env 2 = Returns input2.

Lemma read_HW_none (shape : list nat) :
  read_HW shape = None <-> (List.length shape < 4)%nat.
Proof.
  destruct shape as [|a [|b [|c [|d rest]]]]; simpl; split; intro H;
    try reflexivity; try lia; discriminate.
Qed.

Lemma read_HW_some (shape : list nat) :
  (4 <= List.length shape)%nat ->
  exists H W, nth_error shape 2 = Some H /\ nth_error shape 3 = Some W /\
              read_HW shape = Some (H, W).
Proof.
  destruct shape as [|a [|b [|c [|d rest]]]]; simpl; intro H; try lia.
  exists c, d. auto.
Qed.

Section Runs.
Context `{rng : UniformRandom}.
Variable env : Env.

Lemma main_body_acquired (fuel : nat) (input0 input1 input2 : Tensor) :
  inputs_acquired env input0 input1 input2 ->
  exists pre,
    forallb quiet pre = true /\
    (forall H W, ~ In (GeneratingInput H W) pre) /\
    main_body env fuel = after pre (with_inputs env fuel input0 input1 input2).
Proof.
  intros (H1 & H2 & (devices & H3) & H4 & H5 & H6 & H7 & H8 & H9).
  exists ((setup_events ++ (if find_gpu devices then [] else gpu_warning devices))
          ++ acquire_events).
  split; [destruct (find_gpu devices); reflexivity|].
  split.
  { intros H W Hin. apply in_app_or in Hin. destruct Hin as [Hin|Hin].
    - apply in_app_or in Hin. destruct Hin as [Hin|Hin].
      + simpl in Hin. intuition discriminate.
      + destruct (find_gpu devices); simpl in Hin; intuition discriminate.
    - simpl in Hin. intuition discriminate. }
  rewrite (main_body_after_setup env fuel devices H1 H2 H3).
  rewrite <- (after_after _ acquire_events). f_equal.
  unfold after_devices. rewrite H4, H5, H6, H7, H8, H9.
  run_prog. reflexivity.
Qed.

(** C10.  The two dimensions are read at the indices 2 and 3 of the
    shape of input 0.  Both reads are inside the shape when its rank is
    at least 4 and not otherwise; nothing between the acquisition of
    the tensors and the reads looks at the rank: once the engine has
    handed out the inputs, a shape of rank below 4 is indexed outside
    its bounds, before anything more is printed. *)
Theorem read_HW_unchecked_rank (fuel : nat) (input0 input1 input2 : Tensor) :
  inputs_acquired env input0 input1 input2 ->
  let shape := get_shape input0 in
  (read_HW shape = None <-> (List.length shape < 4)%nat) /\
  ((4 <= List.length shape)%nat ->
   exists H W, nth_error shape 2 = Some H /\ nth_error shape 3 = Some W /\
               read_HW shape = Some (H, W)) /\
  ((List.length shape < 4)%nat ->
   fst (main env fuel) = UndefinedBehaviour /\
   forall H W, ~ In (GeneratingInput H W) (snd (main env fuel))).
Proof.
  intros Ha shape.
  split; [apply read_HW_none|]. split; [apply read_HW_some|].
  intro Hr. apply read_HW_none in Hr.
  destruct (main_body_acquired fuel input0 input1 input2 Ha)
    as (pre & _ & Hpre & E).
  unfold main. rewrite E. unfold with_inputs. fold shape. rewrite Hr.
  cbn. rewrite app_nil_r. split; [reflexivity | exact Hpre].
Qed.

End Runs.

(** An engine whose inputs are matrices, of rank 2. *)
Definition matrix_env : Env :=
  {| core_ctor := Returns tt;
     core_add_extension := Returns tt;
     core_get_available_devices := Returns ["GPU"]%string;
     core_read_model := fun _ => Returns tt;
     core_compile_model := fun _ _ => Returns tt;
     create_infer_request := Returns tt;
     request_get_input_tensor :=
       fun _ => Returns {| get_shape := [2; 2]%nat; data := repeat F32.zero 4 |};
     request_infer := fun _ => Returns tt;
     request_get_output_tensor :=
       fun _ => Returns {| get_shape := [2; 2]%nat; data := repeat F32.zero 4 |};
     clock_now := fun k => Z.of_nat k * three_seconds |}.

Lemma read_HW_unchecked_rank_witness :
  fst (@main MT19937.random matrix_env 12) = UndefinedBehaviour.
Proof.
  pose (t := {| get_shape := [2; 2]%nat; data := repeat F32.zero 4 |}).
  assert (Ha : inputs_acquired matrix_env t t t).
  { unfold inputs_acquired. repeat split; try reflexivity.
    exists ["GPU"%string]. reflexivity. }
  destruct (@read_HW_unchecked_rank MT19937.random matrix_env 12 t t t Ha)
    as (_ & _ & H).
  apply H. simpl. lia.
Defined.

Lemma bind_ok_after {A B} (a : A) (t : list event) (f : A -> M B) :
  bind (Ok a, t) f = after t (f a).
Proof. apply bind_ok. Qed.

Section CompleteRun.
Context `{rng : UniformRandom}.
Variable env : Env.

(** A run in which the engine does all it is asked to and the clock
    advances ends with status 0, whether the verification reported
    success or failure. *)
Lemma main_completes (fuel k : nat) (input0 input1 input2 output : Tensor) :
  inputs_acquired env input0 input1 input2 ->
  (4 <= List.length (get_shape input0))%nat ->
  (forall j, request_infer env j = Returns tt) ->
  request_get_output_tensor env 0 = Returns output ->
  (get_size output <= get_size input0)%nat ->
  (get_size output <= get_size input1)%nat ->
  (get_size output <= get_size input2)%nat ->
  (1 <= k)%nat -> thirty_seconds <= elapsed env k ->
  Z.of_nat k <= INT_MAX -> (k <= fuel)%nat ->
  exists t,
    main env fuel = (Exit 0, t) /\
    In (verdict (data output)
                (draws (get_size input0) (seed_engine 42))
                (draws (get_size input1) (seed_engine 42))
                (draws (get_size input2) (seed_engine 42))
                (get_size output)) t.
Proof.
  intros Ha Hrank Hinfer Hout S0 S1 S2 Hk Hr Hmax Hf.
  destruct (main_body_acquired env fuel input0 input1 input2 Ha)
    as (pre & _ & _ & E).
  destruct (read_HW_some _ Hrank) as (H & W & _ & _ & HW).
  assert (Hr' : reached env k = true) by now apply Z.leb_le.
  destruct (stress_test_run env k fuel Hinfer Hk Hr' Hmax Hf)
    as (n & _ & _ & _ & _ & Hstress).
  unfold main. rewrite E. unfold with_inputs. rewrite HW.
  unfold defined at 1. rewrite bind_ret, bind_print_after.
  unfold fill_inputs. rewrite !fill_tensor_spec. unfold defined.
  rewrite !bind_ret. cbv iota beta.
  rewrite bind_print_after, Hinfer, bind_call_after, Hout, bind_call_after.
  cbn [data get_shape].
  rewrite verify_spec.
  2:{ unfold buffers_cover. rewrite !draws_length. unfold get_size in *. lia. }
  rewrite bind_ok_after, Hstress, !after_after.
  unfold after. cbn [fst snd]. eexists. split; [reflexivity|].
  apply in_or_app. left. apply in_or_app. right.
  apply in_cons, in_or_app. right. now left.
Qed.

End CompleteRun.

(** ** The instance keeps the contract of the distribution *)

Lemma mt19937_first_word : fst (MT19937.next (MT19937.seed 42)) = 1608637542.
Proof. vm_compute. reflexivity. Qed.

Lemma mt19937_contract : @draw_contract MT19937.random.
Proof.
  intro g. change (@draw MT19937.random g) with (MT19937.uniform g).
  unfold MT19937.uniform.
  destruct (MT19937.next g) as [word g']. cbn [fst].
  unfold MT19937.in_contract.
  destruct (F32.valid (MT19937.canonical word) &&
            in_unit_interval (MT19937.canonical word)) eqn:E.
  - now apply andb_true_iff in E.
  - split; reflexivity.
Qed.

Definition zeros_2x2 : Tensor := tensor_2x2 (repeat F32.zero 4).
Definition ones_4 : Tensor := {| get_shape := [4]%nat; data := repeat F32.one 4 |}.

Lemma fill_tensor_deterministic_witness :
  exists values,
    @fill_tensor MT19937.random zeros_2x2 =
      Some {| get_shape := [1; 1; 2; 2]%nat; data := values |} /\
    @fill_tensor MT19937.random ones_4 =
      Some {| get_shape := [4]%nat; data := values |} /\
    Forall (fun x => in_unit_interval x = true) values.
Proof.
  destruct (@fill_tensor_deterministic MT19937.random zeros_2x2 ones_4
              mt19937_contract eq_refl) as (values & _ & E1 & E2 & Hall).
  exists values. auto.
Defined.

Lemma filled_inputs_are_identical_witness :
  exists f0 f1 f2,
    @fill_inputs MT19937.random zeros_2x2 zeros_2x2 ones_4 = (Ok (f0, f1, f2), []) /\
    data f0 = data f1 /\ data f1 = data f2.
Proof.
  destruct (@filled_inputs_are_identical MT19937.random zeros_2x2 zeros_2x2 ones_4
              mt19937_contract) as (f0 & f1 & f2 & E & D0 & D1 & D2 & _).
  exists f0, f1, f2. split; [exact E|].
  rewrite D0, D1, D2. split; reflexivity.
Defined.

(* ================================================================== *)
(** * More on the verification: bounds, verdicts, exact results *)
(* ================================================================== *)

Lemma load_none {A} (l : list A) (i : nat) :
  load l i = None <-> (List.length l <= i)%nat.
Proof. apply nth_error_None. Qed.

Lemma fst_bind_undefined {A B} (f : A -> M B) :
  fst (bind (defined (@None A)) f) = Undefined.
Proof. reflexivity. Qed.

Section VerifyBounds.
Variables out_data in0_data in1_data in2_data : list float.

(** Some buffer ends at or before element [j]. *)
Definition outside (j : nat) : Prop :=
  (List.length out_data <= j)%nat \/ (List.length in0_data <= j)%nat \/
  (List.length in1_data <= j)%nat \/ (List.length in2_data <= j)%nat.

(** The loop reads past a buffer as soon as its range holds an element
    that a buffer does not have. *)
Lemma verify_loop_out_of_bounds n : forall i max_diff success j,
  (i <= j < i + n)%nat -> outside j ->
  fst (verify_loop out_data in0_data in1_data in2_data n i max_diff success) = Undefined.
Proof.
  induction n as [|n IH]; intros i md s j Hj Ho; [lia|].
  cbn [verify_loop].
  destruct (load in0_data i) as [a|] eqn:E0; [|reflexivity].
  destruct (load in1_data i) as [b|] eqn:E1; [|reflexivity].
  destruct (load in2_data i) as [c|] eqn:E2; [|reflexivity].
  destruct (load out_data i) as [o|] eqn:Eo; [|reflexivity].
  assert (Hne : j <> i).
  { intros ->. unfold outside in Ho. rewrite <- !load_none in Ho.
    destruct Ho as [H|[H|[H|H]]]; congruence. }
  unfold defined. rewrite !bind_ret.
  destruct (exceeds_tolerance _).
  - destruct (i <? 5)%nat.
    + rewrite bind_print. cbn [fst]. apply (IH (S i) _ _ j); [lia | exact Ho].
    + rewrite bind_ret. apply (IH (S i) _ _ j); [lia | exact Ho].
  - apply (IH (S i) _ _ j); [lia | exact Ho].
Qed.

Lemma buffers_cover_dec size :
  buffers_cover out_data in0_data in1_data in2_data size \/
  exists j, (j < size)%nat /\ outside j.
Proof.
  unfold buffers_cover, outside.
  destruct (le_lt_dec size (List.length out_data)) as [Ho|Ho];
    [|right; exists (List.length out_data); split; [lia | auto]].
  destruct (le_lt_dec size (List.length in0_data)) as [H0|H0];
    [|right; exists (List.length in0_data); split; [lia | auto]].
  destruct (le_lt_dec size (List.length in1_data)) as [H1|H1];
    [|right; exists (List.length in1_data); split; [lia | auto]].
  destruct (le_lt_dec size (List.length in2_data)) as [H2|H2];
    [|right; exists (List.length in2_data); split; [lia | auto 6]].
  left. auto.
Qed.

(** X1.  The verification loop indexes the four buffers up to the size
    of the output and nothing compares their lengths: it runs to its
    verdict exactly when each buffer has at least [size] elements, and
    otherwise it reads past the end of a buffer. *)
Theorem verify_defined_iff_buffers_cover (size : nat) :
  (fst (verify out_data in0_data in1_data in2_data size) = Ok tt <->
   buffers_cover out_data in0_data in1_data in2_data size) /\
  (fst (verify out_data in0_data in1_data in2_data size) = Undefined <->
   ~ buffers_cover out_data in0_data in1_data in2_data size).
Proof.
  destruct (buffers_cover_dec size) as [Hc | (j & Hj & Ho)].
  - rewrite (verify_spec _ _ _ _ _ Hc). cbn [fst].
    split; split; try tauto; try discriminate.
  - assert (Hu : fst (verify out_data in0_data in1_data in2_data size) = Undefined).
    { unfold verify. rewrite bind_print. cbn [fst].
      pose proof (verify_loop_out_of_bounds size 0 F32.zero true j
                    ltac:(lia) Ho) as Hl.
      destruct (verify_loop _ _ _ _ size 0 F32.zero true) as [[r| | |] t];
        simpl in Hl; try discriminate. reflexivity. }
    assert (Hn : ~ buffers_cover out_data in0_data in1_data in2_data size).
    { unfold buffers_cover, outside in *. lia. }
    rewrite Hu. split; split; try tauto; try discriminate.
Qed.

Let dev := deviation_at out_data in0_data in1_data in2_data.
Let bad := violating out_data in0_data in1_data in2_data.

Definition success_line : event :=
  Stdout "SUCCESS: Result matches expected output!".

Lemma in_verify_trace_verdict (size : nat) (ev : event) :
  buffers_cover out_data in0_data in1_data in2_data size ->
  ev <> Stdout "Verifying results..." -> is_mismatch ev = false ->
  (In ev (snd (verify out_data in0_data in1_data in2_data size)) <->
   ev = verdict out_data in0_data in1_data in2_data size).
Proof.
  intros Hc Hv Hm. rewrite (verify_spec _ _ _ _ _ Hc). cbn [snd].
  split.
  - intros [H|H]; [congruence|].
    apply in_app_or in H. destruct H as [H|[H|[]]]; [|congruence].
    unfold printed_mismatches in H. apply in_map_iff in H.
    destruct H as (i & <- & _). discriminate.
  - intros ->. right. apply in_or_app. right. now left.
Qed.

(** X2.  When no deviation is a NaN, the success line is printed
    exactly when every element of the output is within 1e-3 of its
    reference value. *)
Theorem verify_success_iff_within_tolerance (size : nat) :
  buffers_cover out_data in0_data in1_data in2_data size ->
  (forall i, (i < size)%nat -> F32.is_nan (dev i) = false) ->
  (In success_line (snd (verify out_data in0_data in1_data in2_data size)) <->
   forall i, (i < size)%nat -> within_tolerance (dev i) = true).
Proof.
  intros Hc Hn.
  etransitivity;
    [apply (in_verify_trace_verdict size success_line Hc); [discriminate | reflexivity]|].
  etransitivity;
    [|apply (verdict_success_iff_within out_data in0_data in1_data in2_data size Hn)].
  unfold success_line. split; intro H; now rewrite H.
Qed.

(** X3.  When some element exceeds the tolerance, the failure line is
    printed with a value that is the deviation of a violating element,
    lies above 1e-3 and is not below any deviation that is a number:
    the largest deviation of the run. *)
Theorem verify_failure_reports_largest_deviation (size : nat) :
  buffers_cover out_data in0_data in1_data in2_data size ->
  (exists i, (i < size)%nat /\ bad i = true) ->
  exists m,
    In (Failure m) (snd (verify out_data in0_data in1_data in2_data size)) /\
    ~ In success_line (snd (verify out_data in0_data in1_data in2_data size)) /\
    (exists i, (i < size)%nat /\ bad i = true /\ m = dev i) /\
    exceeds_tolerance m = true /\
    (forall j, (j < size)%nat -> F32.is_nan (dev j) = false ->
               F32.le (dev j) m = true).
Proof.
  intros Hc Hex.
  destruct (failure_reports_maximum out_data in0_data in1_data in2_data size Hex)
    as (Hatt & Hub).
  set (m := fold_max out_data in0_data in1_data in2_data
              (violators out_data in0_data in1_data in2_data 0 size) F32.zero) in *.
  assert (Hv : verdict out_data in0_data in1_data in2_data size = Failure m).
  { unfold verdict.
    destruct (forallb _ _) eqn:E; [|reflexivity]. exfalso.
    destruct Hex as (i & Hi & Bi). rewrite forallb_forall in E.
    specialize (E i). rewrite in_seq in E. unfold bad in Bi.
    rewrite Bi in E. discriminate E. lia. }
  exists m. split; [|split; [|split; [exact Hatt|split; [|exact Hub]]]].
  - apply (in_verify_trace_verdict size (Failure m) Hc); [discriminate | reflexivity | now rewrite Hv].
  - intro H. apply (in_verify_trace_verdict size success_line Hc) in H;
      [|discriminate | reflexivity]. rewrite Hv in H. discriminate.
  - destruct Hatt as (i & _ & Bi & ->). exact Bi.
Qed.

End VerifyBounds.

Lemma filter_none {A} (f : A -> bool) (l : list A) :
  (forall x, In x l -> f x = false) -> filter f l = [].
Proof.
  induction l as [|x l IH]; intro H; [reflexivity|].
  simpl. rewrite (H x) by now left. apply IH. intros y Hy. apply H. now right.
Qed.

(** The deviation of a value from itself never exceeds the tolerance:
    it is zero, or a NaN when the value is infinite or a NaN. *)
Lemma self_deviation_passes (x : float) : exceeds_tolerance (deviation x x) = false.
Proof.
  destruct x as [s|s| |s m e].
  - destruct s; reflexivity.
  - destruct s; reflexivity.
  - reflexivity.
  - unfold deviation, F32.sub, SFsub. rewrite Z.sub_diag. reflexivity.
Qed.

(** X4.  An output that holds, element for element, exactly the
    reference value computed by the program passes the verification:
    the success line is printed and no mismatch line is. *)
Theorem verify_accepts_exact_result
        (out_data in0_data in1_data in2_data : list float) (size : nat) :
  buffers_cover out_data in0_data in1_data in2_data size ->
  (forall i, (i < size)%nat ->
             nth i out_data F32.nan = expected_at in0_data in1_data in2_data i) ->
  verify out_data in0_data in1_data in2_data size =
  (Ok tt, [Stdout "Verifying results..."; success_line]).
Proof.
  intros Hc Hex.
  assert (Hb : forall i, (i < size)%nat ->
                         violating out_data in0_data in1_data in2_data i = false).
  { intros i Hi. unfold violating, deviation_at. rewrite (Hex i Hi).
    apply self_deviation_passes. }
  rewrite (verify_spec _ _ _ _ _ Hc).
  apply (verdict_success_iff out_data in0_data in1_data in2_data size) in Hb as Hv.
  rewrite Hv. unfold printed_mismatches, violators.
  rewrite (filter_none (violating out_data in0_data in1_data in2_data)).
  - reflexivity.
  - intros i Hi. apply in_seq in Hi. apply Hb. lia.
Qed.

Lemma six_halves_cover (out_data : list float) :
  List.length out_data = 6%nat ->
  buffers_cover out_data six_halves six_halves six_halves 6.
Proof. intro H. unfold buffers_cover. rewrite H. simpl. lia. Qed.

Lemma verify_accepts_exact_result_witness :
  verify six_halves six_halves six_halves six_halves 6 =
  (Ok tt, [Stdout "Verifying results..."; success_line]).
Proof.
  apply verify_accepts_exact_result.
  - apply six_halves_cover. reflexivity.
  - intros i Hi.
    do 6 (destruct i as [|i]; [vm_compute; reflexivity|]). lia.
Defined.

Lemma verify_success_iff_within_tolerance_witness :
  In success_line (snd (verify six_halves six_halves six_halves six_halves 6)) <->
  forall i, (i < 6)%nat ->
            within_tolerance (deviation_at six_halves six_halves six_halves six_halves i) = true.
Proof.
  apply verify_success_iff_within_tolerance.
  - apply six_halves_cover. reflexivity.
  - intros i Hi.
    do 6 (destruct i as [|i]; [vm_compute; reflexivity|]). lia.
Defined.

Lemma verify_failure_reports_largest_deviation_witness :
  exists m,
    In (Failure m)
       (snd (verify output_6_last_off six_halves six_halves six_halves 6)) /\
    exceeds_tolerance m = true.
Proof.
  destruct (verify_failure_reports_largest_deviation
              output_6_last_off six_halves six_halves six_halves 6)
    as (m & Hin & _ & _ & Hm & _).
  - apply six_halves_cover. reflexivity.
  - exists 5%nat. split; [lia | vm_compute; reflexivity].
  - exists m. split; assumption.
Defined.

(* ================================================================== *)
(** * The custom operator: construction and cloning *)
(* ================================================================== *)

Module CustomAddMulNode.
Import CustomAddMul.

(** [Op(args)]: the engine's [ov::Node(arguments, output_size = 1)]
    connects input [i] to argument [i] and creates one output, of
    dynamic type and shape. *)
Definition Op (args : list descriptor) : node :=
  {| inputs := args; outputs := [fresh_output] |}.

(** [CustomAddMul(const ov::OutputVector& args) : Op(args)
    { validate_and_infer_types(); }] *)
Definition construct (args : list descriptor) : option node :=
  validate_and_infer_types (Op args).

(** [clone_with_new_inputs(new_args)] is
    [std::make_shared<CustomAddMul>(new_args)]. *)
Definition clone_with_new_inputs (n : node) (new_args : list descriptor)
  : option node :=
  construct new_args.

(** [visit_attributes] *)
Definition visit_attributes (n : node) : bool := true.

Lemma set_nth_output_0_length outs d :
  List.length (set_nth_output outs 0 d) = Nat.max 1 (List.length outs).
Proof. destruct outs; reflexivity. Qed.

(** X5.  The inference never raises and running it again changes
    nothing: the node it returns is a fixed point.  It keeps the inputs,
    adds output 0 when the node had no output and no other output, and
    on a node without inputs it does nothing at all. *)
Theorem validate_and_infer_types_idempotent (n : node) :
  exists n',
    validate_and_infer_types n = Some n' /\
    validate_and_infer_types n' = Some n' /\
    inputs n' = inputs n /\
    (inputs n = [] -> n' = n) /\
    (inputs n <> [] ->
     List.length (outputs n') = Nat.max 1 (List.length (outputs n))).
Proof.
  destruct n as [ins outs]. destruct ins as [|[et ps] rest].
  - exists {| inputs := []; outputs := outs |}. repeat split; try reflexivity.
    intro H. now contradiction H.
  - eexists. split; [reflexivity|]. cbn [inputs outputs]. repeat split.
    + destruct outs; reflexivity.
    + discriminate.
    + intros _. apply set_nth_output_0_length.
Qed.

(** X6.  A clone is built from the new arguments alone.  With at least
    one argument it has these arguments as inputs and a single output
    with the type and shape of argument 0, whatever node was cloned;
    without arguments it still is built, with one output of dynamic type
    and shape.  Cloning a constructed node onto its own inputs gives the
    node back. *)
Theorem clone_with_new_inputs_rebuilds (n : node) (new_args : list descriptor) :
  exists c,
    clone_with_new_inputs n new_args = Some c /\
    inputs c = new_args /\
    outputs c = [nth 0 new_args fresh_output] /\
    clone_with_new_inputs c (inputs c) = Some c.
Proof.
  unfold clone_with_new_inputs, construct, Op.
  destruct new_args as [|[et ps] rest].
  - eexists. repeat split; reflexivity.
  - eexists. split; [reflexivity|]. repeat split.
Qed.

End CustomAddMulNode.

(* ================================================================== *)
(** * What a program emits *)
(* ================================================================== *)

(** Every event of the computation satisfies [P]. *)
Definition emits {A} (P : event -> Prop) (m : M A) : Prop := Forall P (snd m).

Lemma emits_ret {A} P (a : A) : emits P (ret a).
Proof. constructor. Qed.

Lemma emits_print P (ev : event) : P ev -> emits P (print ev).
Proof. intro H. unfold emits. simpl. auto. Qed.

Lemma emits_call {A} P (op : api) (r : result A) :
  (forall raised, P (Call op raised)) -> emits P (call op r).
Proof. intro H. unfold emits. destruct r; simpl; auto. Qed.

Lemma emits_defined {A} P (o : option A) : emits P (defined o).
Proof. destruct o; constructor. Qed.

Lemma emits_bind {A B} P (m : M A) (f : A -> M B) :
  emits P m -> (forall a, emits P (f a)) -> emits P (bind m f).
Proof.
  unfold emits. intros Hm Hf. destruct m as [[a|e| |] t]; simpl in *; try assumption.
  specialize (Hf a). destruct (f a) as [r t']. simpl in *.
  apply Forall_app. split; assumption.
Qed.

(** The event is not a line on the error stream. *)
Definition not_stderr (ev : event) : bool :=
  match ev with Stderr _ => false | _ => true end.

Ltac emits_step :=
  first [ apply emits_ret
        | apply emits_defined
        | apply emits_print; reflexivity
        | apply emits_call; intros; reflexivity
        | apply emits_bind; [|intros]
        | match goal with
          | |- emits _ (match ?x with _ => _ end) => destruct x
          end ].

Lemma verify_loop_no_stderr out_data in0_data in1_data in2_data n :
  forall i max_diff success,
    emits (fun ev => not_stderr ev = true)
          (verify_loop out_data in0_data in1_data in2_data n i max_diff success).
Proof.
  induction n as [|n IH]; intros i md s; cbn [verify_loop].
  - apply emits_ret.
  - repeat emits_step; apply IH.
Qed.

Lemma verify_no_stderr out_data in0_data in1_data in2_data size :
  emits (fun ev => not_stderr ev = true)
        (verify out_data in0_data in1_data in2_data size).
Proof.
  unfold verify. emits_step; [emits_step|].
  emits_step; [apply verify_loop_no_stderr|].
  repeat emits_step.
Qed.

Lemma int_succ_emits P (i : Z) : emits P (int_succ i).
Proof. unfold int_succ. destruct (_ <? _); constructor. Qed.

Lemma stress_loop_no_stderr env fuel : forall start n,
  emits (fun ev => not_stderr ev = true) (stress_loop env fuel start n).
Proof.
  induction fuel as [|fuel IH]; intros start n; cbn [stress_loop].
  - constructor.
  - emits_step; [emits_step|].
    emits_step; [apply int_succ_emits|].
    repeat emits_step; apply IH.
Qed.

Section DeviceFacts.
Context `{rng : UniformRandom}.
Variable env : Env.

Lemma after_devices_no_stderr (fuel : nat) :
  emits (fun ev => not_stderr ev = true) (after_devices env fuel).
Proof.
  unfold after_devices, with_inputs, fill_inputs, stress_test.
  repeat first [ apply verify_no_stderr
               | apply stress_loop_no_stderr
               | emits_step ].
Qed.

End DeviceFacts.

Lemma find_gpu_true (devices : list string) :
  find_gpu devices = true <->
  exists d, In d devices /\ contains d "GPU".
Proof.
  split.
  - induction devices as [|d0 devices IH]; simpl; [discriminate|].
    destruct (string_find d0 "GPU") as [n|] eqn:F.
    + intros _. exists d0. split; [now left|].
      exact (string_find_some _ _ _ F).
    + intro H. destruct (IH H) as (d & Hd & Hc). exists d. split; [now right | exact Hc].
  - intros (d & Hd & Hc). destruct (find_gpu devices) eqn:E; [reflexivity|].
    exfalso. rewrite find_gpu_false in E. exact (E d Hd Hc).
Qed.

(** X7.  The device loop finds a GPU exactly when the name of some
    device has ["GPU"] as a substring, in capitals and at any position;
    otherwise, and for an empty list, it finds none. *)
Theorem find_gpu_detects_substring (devices : list string) :
  (find_gpu devices = true <-> exists d, In d devices /\ contains d "GPU") /\
  (find_gpu devices = false <-> forall d, In d devices -> ~ contains d "GPU") /\
  find_gpu [] = false /\
  find_gpu ["CPU"; "GPU.1"]%string = true /\
  find_gpu ["CPU"; "gpu"; "NPU"]%string = false.
Proof.
  split; [apply find_gpu_true|]. split; [apply find_gpu_false|].
  repeat split.
Qed.

(** X8.  When the name of some device contains ["GPU"], the body of
    [main] goes from the device list straight to the loading of the
    model and writes nothing at all to the error stream. *)
Theorem gpu_found_writes_no_warning `{rng : UniformRandom} (env : Env)
        (fuel : nat) (devices : list string) :
  core_ctor env = Returns tt ->
  core_add_extension env = Returns tt ->
  core_get_available_devices env = Returns devices ->
  (exists d, In d devices /\ contains d "GPU") ->
  main_body env fuel =
    (fst (after_devices env fuel), setup_events ++ snd (after_devices env fuel)) /\
  forall line, ~ In (Stderr line) (snd (main_body env fuel)).
Proof.
  intros H1 H2 H3 Hg. apply find_gpu_true in Hg.
  rewrite (main_body_after_setup env fuel devices H1 H2 H3), Hg, app_nil_r.
  split; [reflexivity|].
  intros line Hin. unfold after in Hin. cbn [snd] in Hin.
  apply in_app_or in Hin. destruct Hin as [Hin|Hin].
  - simpl in Hin. intuition discriminate.
  - pose proof (after_devices_no_stderr env fuel) as Hall.
    unfold emits in Hall. rewrite Forall_forall in Hall.
    specialize (Hall _ Hin). discriminate Hall.
Qed.

Lemma gpu_found_writes_no_warning_witness :
  @main_body MT19937.random slow_env 12 =
  (fst (@after_devices MT19937.random slow_env 12),
   setup_events ++ snd (@after_devices MT19937.random slow_env 12)).
Proof.
  apply (@gpu_found_writes_no_warning MT19937.random slow_env 12
           ["CPU"; "GPU.0"]%string eq_refl eq_refl eq_refl).
  exists "GPU.0"%string. split; [simpl; auto|].
  exists ""%string, ".0"%string. reflexivity.
Defined.

(* ================================================================== *)
(** * The calls into the engine *)
(* ================================================================== *)

Definition call_op (ev : event) : list api :=
  match ev with Call op _ => [op] | _ => [] end.

(** The operations called, in order. *)
Definition calls_of (t : list event) : list api := flat_map call_op t.

Lemma calls_of_app (t t' : list event) :
  calls_of (t ++ t') = calls_of t ++ calls_of t'.
Proof. apply flat_map_app. Qed.

Lemma calls_of_lines (t : list event) :
  forallb is_line t = true -> calls_of t = [].
Proof.
  induction t as [|ev t IH]; [reflexivity|]. simpl.
  intro H. apply andb_true_iff in H. destruct H as [Hev Ht].
  rewrite (IH Ht). destruct ev; try reflexivity. discriminate.
Qed.

Lemma last_app_nonempty {A} (l l' : list A) (d : A) :
  l' <> [] -> last (l ++ l') d = last l' d.
Proof.
  intro H. induction l as [|x l IH]; [reflexivity|].
  cbn [app]. rewrite <- IH.
  destruct (l ++ l') eqn:E; [|reflexivity].
  apply app_eq_nil in E. destruct E as [_ E]. contradiction.
Qed.

Definition is_total (ev : event) : bool :=
  match ev with Total _ => true | _ => false end.

Section StressRuns.
Variable env : Env.

Lemma calls_of_progress_line (j : nat) : calls_of (progress_line env j) = [].
Proof. unfold progress_line. destruct (_ =? _); reflexivity. Qed.

Lemma calls_of_loop_events count : forall n,
  calls_of (loop_events env count n) = repeat Infer (S count).
Proof.
  induction count as [|count IH]; intro n; [reflexivity|].
  cbn [loop_events]. change (Call Infer None :: ?l) with ([Call Infer None] ++ l).
  rewrite !calls_of_app, calls_of_progress_line, IH. reflexivity.
Qed.

(** What the loop does when the inference raises after [count] more
    iterations. *)
Fixpoint raising_events (count n : nat) (e : exn) : list event :=
  match count with
  | O => [Call Infer (Some e)]
  | S count' =>
      Call Infer None :: progress_line env (S n) ++ raising_events count' (S n) e
  end.

Lemma calls_of_raising_events count : forall n e,
  calls_of (raising_events count n e) = repeat Infer (S count).
Proof.
  induction count as [|count IH]; intros n e; [reflexivity|].
  cbn [raising_events]. change (Call Infer None :: ?l) with ([Call Infer None] ++ l).
  rewrite !calls_of_app, calls_of_progress_line, IH. reflexivity.
Qed.

Lemma lines_raising_events count : forall n e,
  lines (raising_events count n e) = progress_lines env count n.
Proof.
  unfold progress_lines.
  induction count as [|count IH]; intros n e; [reflexivity|].
  cbn [raising_events lines filter is_line seq].
  unfold lines in *. rewrite filter_app, IH. unfold progress_line.
  destruct (Z.rem (Z.of_nat (S n)) 10 =? 0); reflexivity.
Qed.

Lemma last_raising_events count : forall n e d,
  last (raising_events count n e) d = Call Infer (Some e).
Proof.
  induction count as [|count IH]; intros n e d; [reflexivity|].
  cbn [raising_events].
  change (Call Infer None :: ?l) with ([Call Infer None] ++ l).
  rewrite app_assoc, last_app_nonempty; [apply IH|].
  destruct count; discriminate.
Qed.

(** The loop up to an inference that raises. *)
Lemma stress_loop_raises d : forall n fuel e,
  request_infer env (n + S d) = Raises e ->
  (forall i, (n < i < n + S d)%nat ->
             request_infer env i = Returns tt /\ reached env i = false) ->
  Z.of_nat (n + d) <= INT_MAX -> (d < fuel)%nat ->
  stress_loop env fuel (clock_now env 0) n = (Throw e, raising_events d n e).
Proof.
  induction d as [|d IH]; intros n fuel e He Hbefore Hmax Hf;
    (destruct fuel as [|fuel]; [lia|]); cbn [stress_loop].
  - replace (n + 1)%nat with (S n) in He by lia.
    rewrite He. reflexivity.
  - destruct (Hbefore (S n) ltac:(lia)) as [Hi Hr].
    rewrite Hi, bind_call_returns. unfold int_succ.
    destruct (Z.of_nat n <? INT_MAX) eqn:E; [|apply Z.ltb_ge in E; lia].
    rewrite bind_ret. replace (Z.of_nat n + 1) with (Z.of_nat (S n)) by lia.
    fold (elapsed env (S n)). fold (reached env (S n)). rewrite Hr.
    assert (Hrec : stress_loop env fuel (clock_now env 0) (S n) =
                   (Throw e, raising_events d (S n) e)).
    { apply IH; try lia.
      - replace (S n + S d)%nat with (n + S (S d))%nat by lia. exact He.
      - intros i Hi'. apply Hbefore. lia. }
    cbn [raising_events]. unfold progress_line at 1.
    destruct (Z.rem (Z.of_nat (S n)) 10 =? 0).
    + rewrite bind_print, Hrec. reflexivity.
    + rewrite bind_ret, Hrec. reflexivity.
Qed.

(** A loop that ends normally went through its iterations. *)
Lemma stress_loop_ok_inv fuel : forall n m t,
  stress_loop env fuel (clock_now env 0) n = (Ok m, t) ->
  exists k,
    m = Z.of_nat k /\ (n < k)%nat /\ Z.of_nat k <= INT_MAX /\
    reached env k = true /\
    (forall j, (n < j < k)%nat -> reached env j = false) /\
    (forall j, (n < j <= k)%nat -> request_infer env j = Returns tt) /\
    t = loop_events env (k - n - 1) n.
Proof.
  induction fuel as [|fuel IH]; intros n m t; cbn [stress_loop]; [discriminate|].
  destruct (request_infer env (S n)) as [[]|e] eqn:Hi; [|discriminate].
  rewrite bind_call_returns. unfold int_succ.
  destruct (Z.of_nat n <? INT_MAX) eqn:E; [|discriminate].
  apply Z.ltb_lt in E.
  rewrite bind_ret. replace (Z.of_nat n + 1) with (Z.of_nat (S n)) by lia.
  fold (elapsed env (S n)). fold (reached env (S n)).
  destruct (reached env (S n)) eqn:R.
  - cbn [ret fst snd]. intro H. inversion H; subst. exists (S n).
    replace (S n - n - 1)%nat with 0%nat by lia.
    repeat split; try lia; try assumption.
    + intros j Hj. replace j with (S n) by lia. exact Hi.
  - destruct (stress_loop env fuel (clock_now env 0) (S n)) as [[m'|e| |] t'] eqn:Hrec;
      (destruct (Z.rem (Z.of_nat (S n)) 10 =? 0) eqn:P;
       [rewrite bind_print | rewrite bind_ret]); cbn [fst snd];
      intro H; inversion H; subst;
      destruct (IH (S n) m t' Hrec) as (k & -> & Hk & Hmax & Rk & Hb & Hr & ->);
      exists k;
      (repeat split; try lia; try assumption;
       [ intros j Hj; destruct (Nat.eq_dec j (S n)) as [->|]; [exact R | apply Hb; lia]
       | intros j Hj; destruct (Nat.eq_dec j (S n)) as [->|]; [exact Hi | apply Hr; lia]
       | replace (k - n - 1)%nat with (S (k - S n - 1)) by lia;
         cbn [loop_events]; unfold progress_line at 1; rewrite P; reflexivity ]).
Qed.

End StressRuns.

Lemma stress_test_raises (env : Env) (j fuel : nat) (e : exn) :
  (1 <= j)%nat -> request_infer env j = Raises e ->
  (forall i, (1 <= i < j)%nat ->
             request_infer env i = Returns tt /\ elapsed env i < thirty_seconds) ->
  Z.of_nat j <= INT_MAX -> (j <= fuel)%nat ->
  stress_test env fuel =
  (Throw e, stress_start_line :: raising_events env (j - 1) 0 e).
Proof.
  intros Hj He Hbefore Hmax Hf.
  unfold stress_test. rewrite bind_print. cbv zeta.
  rewrite (stress_loop_raises env (j - 1) 0 fuel e); try lia.
  - reflexivity.
  - replace (0 + S (j - 1))%nat with j by lia. exact He.
  - intros i Hi. destruct (Hbefore i ltac:(lia)) as [Hr Hl].
    split; [exact Hr|]. now apply Z.leb_gt.
Qed.

(** X9.  Whenever the stress test ends normally, for any engine and
    clock, it printed a total [n >= 1] as its last line, it made
    exactly [n] inference calls and each returned, the check after the
    [n]-th call found thirty seconds elapsed and no earlier check did:
    the loop never ends early and never skips a call. *)
Theorem stress_test_normal_end (env : Env) (fuel : nat) (t : list event) :
  stress_test env fuel = (Ok tt, t) ->
  exists n,
    (1 <= n)%nat /\ Z.of_nat n <= INT_MAX /\
    last t stress_start_line = Total (Z.of_nat n) /\
    calls_of t = repeat Infer n /\
    thirty_seconds <= elapsed env n /\
    (forall j, (j < n)%nat -> elapsed env j < thirty_seconds) /\
    (forall j, (1 <= j <= n)%nat -> request_infer env j = Returns tt).
Proof.
  unfold stress_test. rewrite bind_print. cbv zeta.
  destruct (stress_loop env fuel (clock_now env 0) 0) as [[m|e| |] t'] eqn:E;
    cbn [bind fst snd]; try discriminate.
  destruct (stress_loop_ok_inv env fuel 0 m t' E)
    as (n & -> & Hn & Hmax & Rn & Hb & Hr & ->).
  unfold print. cbn [fst snd]. intro H. inversion H; subst. clear H.
  exists n. replace (n - 0 - 1)%nat with (n - 1)%nat by lia.
  repeat split; try lia.
  - rewrite app_comm_cons. apply last_last.
  - match goal with
    | |- calls_of (?x :: ?l) = _ => change (calls_of (x :: l)) with (calls_of l)
    end.
    rewrite calls_of_app, calls_of_loop_events.
    cbn [calls_of flat_map call_op app].
    rewrite app_nil_r. replace (S (n - 1)) with n by lia. reflexivity.
  - now apply Z.leb_le.
  - intros j Hj. destruct j as [|j].
    + unfold elapsed, thirty_seconds. lia.
    + apply Z.leb_gt. apply Hb. lia.
  - intros j Hj. apply Hr. lia.
Qed.

Lemma stress_test_normal_end_witness :
  exists n, (1 <= n)%nat /\
            calls_of (snd (stress_test slow_env 12)) = repeat Infer n.
Proof.
  assert (E : stress_test slow_env 12 = (Ok tt, snd (stress_test slow_env 12)))
    by (vm_compute; reflexivity).
  destruct (stress_test_normal_end slow_env 12 _ E) as (n & Hn & _ & _ & Hc & _).
  exists n. split; assumption.
Defined.

(* ================================================================== *)
(** * Whole runs *)
(* ================================================================== *)

(** The calls of a run up to the stress test. *)
Definition setup_calls : list api :=
  [ CoreCtor; AddExtension; GetAvailableDevices;
    ReadModel model_xml; CompileModel "GPU" config; CreateInferRequest;
    GetInputTensor 0; GetInputTensor 1; GetInputTensor 2;
    Infer; GetOutputTensor 0 ].

Lemma calls_of_printed_mismatches out_data in0_data in1_data in2_data i n :
  calls_of (printed_mismatches out_data in0_data in1_data in2_data i n) = [].
Proof.
  unfold printed_mismatches.
  induction (filter _ _) as [|j l IH]; [reflexivity | exact IH].
Qed.

Lemma calls_of_verdict out_data in0_data in1_data in2_data size :
  calls_of [verdict out_data in0_data in1_data in2_data size] = [].
Proof. unfold verdict. destruct (forallb _ _); reflexivity. Qed.

Lemma no_total_printed_mismatches out_data in0_data in1_data in2_data i n :
  forallb (fun ev => negb (is_total ev))
          (printed_mismatches out_data in0_data in1_data in2_data i n) = true.
Proof.
  unfold printed_mismatches.
  induction (filter _ _) as [|j l IH]; [reflexivity | exact IH].
Qed.

Section WholeRuns.
Context `{rng : UniformRandom}.
Variable env : Env.
Variables input0 input1 input2 output : Tensor.

(** The engine does all it is asked to up to the verification, on
    tensors the program can index. *)
Definition verification_runs : Prop :=
  inputs_acquired env input0 input1 input2 /\
  (4 <= List.length (get_shape input0))%nat /\
  request_infer env 0 = Returns tt /\
  request_get_output_tensor env 0 = Returns output /\
  (get_size output <= get_size input0)%nat /\
  (get_size output <= get_size input1)%nat /\
  (get_size output <= get_size input2)%nat.

Definition run_verdict : event :=
  verdict (data output)
          (draws (get_size input0) (seed_engine 42))
          (draws (get_size input1) (seed_engine 42))
          (draws (get_size input2) (seed_engine 42))
          (get_size output).

Lemma main_body_until_stress (fuel : nat) :
  verification_runs ->
  exists pre,
    main_body env fuel = after pre (stress_test env fuel) /\
    calls_of pre = setup_calls /\
    forallb (fun ev => negb (is_total ev)) pre = true /\
    forallb quiet pre = true /\
    In run_verdict pre.
Proof.
  intros (Ha & Hrank & Hinfer & Hout & S0 & S1 & S2).
  destruct Ha as (H1 & H2 & (devices & H3) & H4 & H5 & H6 & H7 & H8 & H9).
  destruct (read_HW_some _ Hrank) as (H & W & _ & _ & HW).
  eexists. split.
  - rewrite (main_body_after_setup env fuel devices H1 H2 H3).
    unfold after_devices. rewrite H4, H5, H6, H7, H8, H9. run_prog.
    unfold with_inputs. rewrite HW.
    unfold defined at 1. rewrite bind_ret, bind_print_after.
    unfold fill_inputs. rewrite !fill_tensor_spec. unfold defined.
    rewrite !bind_ret. cbv iota beta.
    rewrite bind_print_after, Hinfer, bind_call_after, Hout, bind_call_after.
    cbn [data get_shape].
    rewrite verify_spec.
    2:{ unfold buffers_cover. rewrite !draws_length. unfold get_size in *. lia. }
    rewrite bind_ok_after, !after_after. reflexivity.
  - fold run_verdict.
    set (V := Stdout "Verifying results..." :: _ ++ [run_verdict]).
    assert (Vc : calls_of V = []).
    { unfold V. change (calls_of (?x :: ?l)) with (calls_of l).
      rewrite calls_of_app, calls_of_printed_mismatches.
      apply calls_of_verdict. }
    assert (Vt : forallb (fun ev => negb (is_total ev)) V = true).
    { unfold V. cbn [forallb is_total negb andb].
      rewrite forallb_app, no_total_printed_mismatches.
      unfold run_verdict, verdict. destruct (forallb _ (seq _ _)); reflexivity. }
    assert (Vq : forallb quiet V = true).
    { unfold V. cbn [forallb quiet andb]. rewrite forallb_app.
      unfold run_verdict, verdict, printed_mismatches.
      replace (forallb quiet (map _ _)) with true.
      - destruct (forallb _ (seq _ _)); reflexivity.
      - induction (filter _ _) as [|j q IH]; [reflexivity | exact IH]. }
    repeat split.
    + rewrite !calls_of_app, Vc. destruct (find_gpu devices); reflexivity.
    + rewrite !forallb_app, Vt. destruct (find_gpu devices); reflexivity.
    + rewrite !forallb_app, Vq. destruct (find_gpu devices); reflexivity.
    + apply in_or_app. right. right. apply in_or_app. right. now left.
Qed.

End WholeRuns.

Lemma calls_of_stress_trace (env : Env) (n : nat) (tail : list event) :
  (1 <= n)%nat -> calls_of tail = [] ->
  calls_of (stress_start_line :: loop_events env (n - 1) 0 ++ tail) = repeat Infer n.
Proof.
  intros Hn Ht. change (calls_of (?x :: ?l)) with (calls_of l).
  rewrite calls_of_app, calls_of_loop_events, Ht, app_nil_r.
  now replace (S (n - 1)) with n by lia.
Qed.

Lemma no_total_raising_events (env : Env) count : forall n e,
  forallb (fun ev => negb (is_total ev)) (raising_events env count n e) = true.
Proof.
  induction count as [|count IH]; intros n e; [reflexivity|].
  cbn [raising_events forallb is_total negb andb].
  rewrite forallb_app, IH. unfold progress_line.
  destruct (_ =? _); reflexivity.
Qed.

Lemma not_total_in (t : list event) (n : Z) :
  forallb (fun ev => negb (is_total ev)) t = true -> ~ In (Total n) t.
Proof.
  intros H Hin. rewrite forallb_forall in H. specialize (H _ Hin). discriminate H.
Qed.

(** X10.  A run that goes through the verification and then reaches
    the thirty seconds at some check exits with status 0; the line with
    the total [n] is the last one printed, the verdict of the
    verification is in the output whichever it is, and the engine was
    called exactly for the setup, the verified inference and [n] more
    inferences, in that order. *)
Theorem complete_run_exits_0 `{rng : UniformRandom} (env : Env)
        (input0 input1 input2 output : Tensor) (fuel k : nat) :
  verification_runs env input0 input1 input2 output ->
  (forall j, request_infer env j = Returns tt) ->
  (1 <= k)%nat -> thirty_seconds <= elapsed env k ->
  Z.of_nat k <= INT_MAX -> (k <= fuel)%nat ->
  exists n t,
    (1 <= n <= k)%nat /\
    main env fuel = (Exit 0, t) /\
    last t stress_start_line = Total (Z.of_nat n) /\
    In (run_verdict input0 input1 input2 output) t /\
    calls_of t = setup_calls ++ repeat Infer n.
Proof.
  intros Hv Hinfer Hk Hr Hmax Hf.
  destruct (main_body_until_stress env input0 input1 input2 output fuel Hv)
    as (pre & E & Hc & _ & _ & Hin).
  assert (Hr' : reached env k = true) by now apply Z.leb_le.
  destruct (stress_test_run env k fuel Hinfer Hk Hr' Hmax Hf)
    as (n & Hn & _ & _ & _ & Hstress).
  exists n. eexists. split; [exact Hn|]. split.
  - unfold main. rewrite E, Hstress. unfold after. cbn [fst snd]. reflexivity.
  - split; [|split].
    + rewrite app_comm_cons, app_assoc. apply last_last.
    + apply in_or_app. now left.
    + rewrite calls_of_app, Hc, calls_of_stress_trace by (reflexivity || lia).
      reflexivity.
Qed.

(** X11.  When an inference of the stress loop raises before the
    thirty seconds are over, the process exits with status 1: the
    message of the exception is the last line, no total is printed, and
    the raising call is the last call into the engine, the [j]-th of
    the loop. *)
Theorem stress_inference_failure_exits_1 `{rng : UniformRandom} (env : Env)
        (input0 input1 input2 output : Tensor) (fuel j : nat) (e : exn) :
  verification_runs env input0 input1 input2 output ->
  (1 <= j)%nat -> request_infer env j = Raises e ->
  (forall i, (1 <= i < j)%nat ->
             request_infer env i = Returns tt /\ elapsed env i < thirty_seconds) ->
  Z.of_nat j <= INT_MAX -> (j <= fuel)%nat ->
  exists t,
    main env fuel = (Exit 1, t) /\
    last t stress_start_line = Stderr ("Exception: " ++ e) /\
    (forall n, ~ In (Total n) t) /\
    calls_of t = setup_calls ++ repeat Infer j /\
    last (removelast t) stress_start_line = Call Infer (Some e).
Proof.
  intros Hv Hj He Hbefore Hmax Hf.
  destruct (main_body_until_stress env input0 input1 input2 output fuel Hv)
    as (pre & E & Hc & Ht & _ & _).
  pose proof (stress_test_raises env j fuel e Hj He Hbefore Hmax Hf) as Hs.
  eexists. split.
  - unfold main. rewrite E, Hs. unfold after. cbn [fst snd]. reflexivity.
  - split; [apply last_last|]. split; [|split].
    + intros n Hin. apply in_app_or in Hin. destruct Hin as [Hin|[Hin|[]]];
        [|discriminate].
      apply in_app_or in Hin. destruct Hin as [Hin|[Hin|Hin]].
      * exact (not_total_in _ _ Ht Hin).
      * discriminate.
      * exact (not_total_in _ _ (no_total_raising_events env _ _ _) Hin).
    + rewrite !calls_of_app, Hc.
      change (calls_of (?x :: ?l)) with (calls_of l) at 1.
      rewrite calls_of_raising_events. cbn [calls_of flat_map call_op app].
      rewrite app_nil_r. now replace (S (j - 1)) with j by lia.
    + rewrite removelast_last, last_app_nonempty by discriminate.
      change (?x :: ?l) with ([x] ++ l).
      rewrite last_app_nonempty by (destruct (j - 1)%nat; discriminate).
      apply last_raising_events.
Qed.

Lemma slow_env_verification_runs :
  @verification_runs slow_env zeros_2x2 zeros_2x2 zeros_2x2 zeros_2x2.
Proof.
  unfold verification_runs, inputs_acquired.
  split.
  { split; [reflexivity|]. split; [reflexivity|].
    split; [eexists; reflexivity|]. repeat split; reflexivity. }
  split; [simpl; lia|]. split; [reflexivity|]. split; [reflexivity|].
  repeat split; unfold get_size; simpl; lia.
Qed.

Lemma complete_run_exits_0_witness :
  exists n t,
    @main MT19937.random slow_env 12 = (Exit 0, t) /\
    calls_of t = setup_calls ++ repeat Infer n.
Proof.
  destruct (@complete_run_exits_0 MT19937.random slow_env
              zeros_2x2 zeros_2x2 zeros_2x2 zeros_2x2 12 10
              slow_env_verification_runs)
    as (n & t & _ & E & _ & _ & Hc).
  - reflexivity.
  - lia.
  - vm_compute. discriminate.
  - vm_compute. discriminate.
  - lia.
  - exists n, t. split; assumption.
Defined.

(** An engine that loses the device at the third inference of the
    stress loop. *)
Definition failing_env : Env :=
  {| core_ctor := Returns tt;
     core_add_extension := Returns tt;
     core_get_available_devices := Returns ["CPU"; "GPU.0"]%string;
     core_read_model := fun _ => Returns tt;
     core_compile_model := fun _ _ => Returns tt;
     create_infer_request := Returns tt;
     request_get_input_tensor := fun _ => Returns zeros_2x2;
     request_infer := fun k => if (k =? 3)%nat then Raises "device lost" else Returns tt;
     request_get_output_tensor := fun _ => Returns zeros_2x2;
     clock_now := fun k => Z.of_nat k * three_seconds |}.

Lemma failing_env_verification_runs :
  @verification_runs failing_env zeros_2x2 zeros_2x2 zeros_2x2 zeros_2x2.
Proof.
  unfold verification_runs, inputs_acquired.
  split.
  { split; [reflexivity|]. split; [reflexivity|].
    split; [eexists; reflexivity|]. repeat split; reflexivity. }
  split; [simpl; lia|]. split; [reflexivity|]. split; [reflexivity|].
  repeat split; unfold get_size; simpl; lia.
Qed.

Lemma stress_inference_failure_exits_1_witness :
  exists t,
    @main MT19937.random failing_env 12 = (Exit 1, t) /\
    last t stress_start_line = Stderr "Exception: device lost".
Proof.
  destruct (@stress_inference_failure_exits_1 MT19937.random failing_env
              zeros_2x2 zeros_2x2 zeros_2x2 zeros_2x2 12 3 "device lost"
              failing_env_verification_runs)
    as (t & E & Hl & _).
  - lia.
  - reflexivity.
  - intros i Hi.
    destruct i as [|[|[|i]]]; try lia; (split; [reflexivity | vm_compute; reflexivity]).
  - vm_compute. discriminate.
  - lia.
  - exists t. split; assumption.
Defined.

(* ================================================================== *)
(** * The order of the calls, for every engine *)
(* ================================================================== *)

Lemma snd_bind {A B} (m : M A) (f : A -> M B) :
  snd (bind m f) =
  snd m ++ match fst m with Ok a => snd (f a) | _ => [] end.
Proof.
  destruct m as [[a|e| |] t]; simpl; try now rewrite app_nil_r.
  destruct (f a); reflexivity.
Qed.

Lemma calls_of_after {A} (t : list event) (m : M A) :
  calls_of (snd (after t m)) = calls_of t ++ calls_of (snd m).
Proof. unfold after. cbn [snd]. apply calls_of_app. Qed.

Lemma emits_lines_no_calls {A} (m : M A) :
  emits (fun ev => is_line ev = true) m -> calls_of (snd m) = [].
Proof.
  unfold emits. intro H. apply calls_of_lines.
  apply forallb_forall. now apply Forall_forall.
Qed.

Lemma verify_loop_lines_only out_data in0_data in1_data in2_data n :
  forall i max_diff success,
    emits (fun ev => is_line ev = true)
          (verify_loop out_data in0_data in1_data in2_data n i max_diff success).
Proof.
  induction n as [|n IH]; intros i md s; cbn [verify_loop].
  - apply emits_ret.
  - repeat emits_step; apply IH.
Qed.

(** The verification calls nothing, however it ends. *)
Lemma verify_calls_nothing out_data in0_data in1_data in2_data size :
  calls_of (snd (verify out_data in0_data in1_data in2_data size)) = [].
Proof.
  apply emits_lines_no_calls.
  unfold verify. emits_step; [emits_step|].
  emits_step; [apply verify_loop_lines_only|].
  repeat emits_step.
Qed.

Lemma stress_loop_calls (env : Env) fuel : forall start n,
  exists k, calls_of (snd (stress_loop env fuel start n)) = repeat Infer k.
Proof.
  induction fuel as [|fuel IH]; intros start n; cbn [stress_loop].
  - exists 0%nat. reflexivity.
  - destruct (request_infer env (S n)) as [[]|e].
    + rewrite bind_call_returns. cbn [snd]. unfold int_succ.
      destruct (Z.of_nat n <? INT_MAX); [|exists 1%nat; reflexivity].
      rewrite bind_ret. destruct (_ <=? _); [exists 1%nat; reflexivity|].
      destruct (IH start (S n)) as [k Hk]. exists (S k).
      destruct (_ =? _); [rewrite bind_print | rewrite bind_ret];
        cbn [snd calls_of flat_map call_op app];
        fold (calls_of (snd (stress_loop env fuel start (S n))));
        now rewrite Hk.
    + exists 1%nat. reflexivity.
Qed.

Lemma stress_test_calls (env : Env) fuel :
  exists k, calls_of (snd (stress_test env fuel)) = repeat Infer k.
Proof.
  unfold stress_test. rewrite bind_print. cbv zeta. cbn [snd].
  destruct (stress_loop_calls env fuel (clock_now env 0) 0) as [k Hk].
  exists k. change (calls_of (?x :: ?l)) with (calls_of l).
  rewrite snd_bind, calls_of_app, Hk.
  destruct (fst _); cbn; now rewrite app_nil_r.
Qed.

Section CallOrder.
Context `{rng : UniformRandom}.
Variable env : Env.

Lemma with_inputs_calls (fuel : nat) (input0 input1 input2 : Tensor) :
  exists k rest,
    calls_of (snd (with_inputs env fuel input0 input1 input2)) ++ rest =
    [Infer; GetOutputTensor 0] ++ repeat Infer k.
Proof.
  unfold with_inputs.
  destruct (read_HW (get_shape input0)) as [hw|];
    [|exists 0%nat; eexists; reflexivity].
  unfold defined at 1. rewrite bind_ret, bind_print_after.
  unfold fill_inputs. rewrite !fill_tensor_spec. unfold defined.
  rewrite !bind_ret. cbv iota beta. rewrite bind_print_after, after_after.
  destruct (request_infer env 0) as [[]|e];
    [rewrite bind_call_after
    |rewrite bind_call_raises; exists 0%nat; eexists; reflexivity].
  destruct (request_get_output_tensor env 0) as [output|e];
    [rewrite bind_call_after
    |rewrite bind_call_raises; exists 0%nat; eexists; reflexivity].
  rewrite !after_after, calls_of_after, snd_bind,
    (calls_of_app (snd (verify _ _ _ _ _))), verify_calls_nothing.
  destruct (stress_test_calls env fuel) as [k Hk].
  destruct (fst (verify _ _ _ _ _)).
  - exists k, []. rewrite Hk, app_nil_r. reflexivity.
  - exists 0%nat, []. reflexivity.
  - exists 0%nat, []. reflexivity.
  - exists 0%nat, []. reflexivity.
Qed.

Lemma after_devices_calls (fuel : nat) :
  exists k rest,
    calls_of (snd (after_devices env fuel)) ++ rest =
    [ ReadModel model_xml; CompileModel "GPU" config; CreateInferRequest;
      GetInputTensor 0; GetInputTensor 1; GetInputTensor 2;
      Infer; GetOutputTensor 0 ] ++ repeat Infer k.
Proof.
  unfold after_devices. rewrite !bind_print_after, !after_after.
  destruct (core_read_model env model_xml) as [[]|e];
    [rewrite bind_call_after, !after_after
    |rewrite bind_call_raises; exists 0%nat; eexists; reflexivity].
  destruct (core_compile_model env "GPU" config) as [[]|e];
    [rewrite bind_call_after, !after_after
    |rewrite bind_call_raises; exists 0%nat; eexists; reflexivity].
  destruct (create_infer_request env) as [[]|e];
    [rewrite bind_call_after, !after_after
    |rewrite bind_call_raises; exists 0%nat; eexists; reflexivity].
  destruct (request_get_input_tensor env 0) as [input0|e];
    [rewrite bind_call_after, !after_after
    |rewrite bind_call_raises; exists 0%nat; eexists; reflexivity].
  destruct (request_get_input_tensor env 1) as [input1|e];
    [rewrite bind_call_after, !after_after
    |rewrite bind_call_raises; exists 0%nat; eexists; reflexivity].
  destruct (request_get_input_tensor env 2) as [input2|e];
    [rewrite bind_call_after, !after_after
    |rewrite bind_call_raises; exists 0%nat; eexists; reflexivity].
  destruct (with_inputs_calls fuel input0 input1 input2) as (k & rest & H).
  exists k, rest. rewrite calls_of_after, <- app_assoc, H. reflexivity.
Qed.

(** X12.  Whatever the engine returns or raises, the program calls it
    in one fixed order and never twice for the same step: the calls of
    a run are an initial part of the sequence that starts the engine,
    registers the extension, lists the devices, reads [model.xml],
    compiles it for ["GPU"] with the two configuration entries, creates
    the request, takes the three inputs, infers, takes output 0 and
    then only infers.  In particular nothing is compiled for another
    device and no step is tried again. *)
Theorem main_calls_in_order (fuel : nat) :
  exists k rest,
    calls_of (snd (main env fuel)) ++ rest = setup_calls ++ repeat Infer k.
Proof.
  assert (Hm : calls_of (snd (main env fuel)) = calls_of (snd (main_body env fuel))).
  { unfold main. destruct (main_body env fuel) as [[[]|e| |] t]; cbn [snd];
      try reflexivity. rewrite calls_of_app. apply app_nil_r. }
  rewrite Hm. unfold main_body.
  destruct (core_ctor env) as [[]|e];
    [rewrite bind_call_after
    |rewrite bind_call_raises; exists 0%nat; eexists; reflexivity].
  destruct (core_add_extension env) as [[]|e];
    [rewrite bind_call_after, bind_print_after, !after_after
    |rewrite bind_call_raises; exists 0%nat; eexists; reflexivity].
  destruct (core_get_available_devices env) as [devices|e];
    [rewrite bind_call_after, !after_after
    |rewrite bind_call_raises; exists 0%nat; eexists; reflexivity].
  destruct (after_devices_calls fuel) as (k & rest & H).
  exists k, rest.
  rewrite calls_of_after, snd_bind, (calls_of_app (snd (check_gpu devices))).
  assert (Hg : calls_of (snd (check_gpu devices)) = [] /\
               exists u, fst (check_gpu devices) = Ok u).
  { unfold check_gpu. destruct (negb (find_gpu devices)).
    - split; [reflexivity | exists tt; reflexivity].
    - split; [reflexivity | exists tt; reflexivity]. }
  destruct Hg as [Hg [u Hu]]. rewrite Hg, Hu.
  cbn [app]. rewrite <- app_assoc, H. reflexivity.
Qed.

End CallOrder.

(* ================================================================== *)
(** * Fills of different sizes *)
(* ================================================================== *)

Section FillPrefix.
Context `{rng : UniformRandom}.

Lemma draws_firstn n : forall m g,
  (n <= m)%nat -> draws n g = firstn n (draws m g).
Proof.
  induction n as [|n IH]; intros m g H; [reflexivity|].
  destruct m as [|m]; [lia|].
  cbn [draws]. destruct (draw g) as [v g']. cbn [firstn].
  now rewrite (IH m g') by lia.
Qed.

(** X13.  [fill_tensor] stays inside the buffer whatever the tensor
    is, keeps its shape and its number of elements and overwrites every
    element; and because each call starts again from the seed, a tensor
    with fewer elements receives the first values of what a tensor with
    more elements receives. *)
Theorem fill_tensor_prefix (t1 t2 : Tensor) :
  (get_size t1 <= get_size t2)%nat ->
  exists d1 d2,
    fill_tensor t1 = Some {| get_shape := get_shape t1; data := d1 |} /\
    fill_tensor t2 = Some {| get_shape := get_shape t2; data := d2 |} /\
    List.length d1 = get_size t1 /\ List.length d2 = get_size t2 /\
    d1 = firstn (get_size t1) d2.
Proof.
  intro H. rewrite !fill_tensor_spec. do 2 eexists.
  split; [reflexivity|]. split; [reflexivity|].
  rewrite !draws_length. repeat split. now apply draws_firstn.
Qed.

End FillPrefix.

Definition zeros_6 : Tensor := {| get_shape := [6]%nat; data := repeat F32.zero 6 |}.

Lemma fill_tensor_prefix_witness :
  exists d1 d2,
    @fill_tensor MT19937.random zeros_2x2 =
      Some {| get_shape := [1; 1; 2; 2]%nat; data := d1 |} /\
    @fill_tensor MT19937.random zeros_6 =
      Some {| get_shape := [6]%nat; data := d2 |} /\
    d1 = firstn 4 d2.
Proof.
  destruct (@fill_tensor_prefix MT19937.random zeros_2x2 zeros_6)
    as (d1 & d2 & E1 & E2 & _ & _ & Hp).
  - unfold get_size. simpl. lia.
  - exists d1, d2. auto.
Defined.

(* ================================================================== *)
(** * Where undefined behaviour can come from *)
(* ================================================================== *)

Lemma fst_bind {A B} (m : M A) (f : A -> M B) :
  fst (bind m f) =
  match fst m with
  | Ok a => fst (f a)
  | Throw e => Throw e
  | Undefined => Undefined
  | OutOfFuel => OutOfFuel
  end.
Proof. destruct m as [[a|e| |] t]; simpl; try reflexivity. destruct (f a); reflexivity. Qed.

Lemma fst_after {A} (t : list event) (m : M A) : fst (after t m) = fst m.
Proof. reflexivity. Qed.

(** The counter of the loop overflows only after [INT_MAX] iterations. *)
Lemma stress_loop_undefined (env : Env) fuel : forall start n,
  fst (stress_loop env fuel start n) = Undefined ->
  INT_MAX < Z.of_nat (n + fuel).
Proof.
  induction fuel as [|fuel IH]; intros start n; cbn [stress_loop]; [discriminate|].
  destruct (request_infer env (S n)) as [[]|e]; [|discriminate].
  rewrite bind_call_returns. cbn [fst]. unfold int_succ.
  destruct (Z.of_nat n <? INT_MAX) eqn:E.
  - rewrite bind_ret. destruct (_ <=? _); [discriminate|].
    destruct (_ =? _); [rewrite bind_print | rewrite bind_ret]; cbn [fst];
      intro H; apply IH in H; lia.
  - intros _. apply Z.ltb_ge in E. lia.
Qed.

Lemma stress_test_undefined (env : Env) fuel :
  fst (stress_test env fuel) = Undefined -> INT_MAX < Z.of_nat fuel.
Proof.
  unfold stress_test. rewrite bind_print. cbv zeta. cbn [fst].
  rewrite fst_bind.
  destruct (fst (stress_loop env fuel (clock_now env 0) 0)) eqn:E;
    try discriminate.
  intros _. apply stress_loop_undefined in E. lia.
Qed.

Section UndefinedSources.
Context `{rng : UniformRandom}.
Variable env : Env.

(** The rank of input 0 is below 4. *)
Definition low_rank : Prop :=
  exists input0, request_get_input_tensor env 0 = Returns input0 /\
                 (List.length (get_shape input0) < 4)%nat.

(** An input tensor has fewer elements than the output. *)
Definition short_input : Prop :=
  exists i output,
    (i < 3)%nat /\
    request_get_output_tensor env 0 = Returns output /\
    exists input, request_get_input_tensor env i = Returns input /\
                  (get_size input < get_size output)%nat.

Lemma with_inputs_undefined (fuel : nat) (input0 input1 input2 : Tensor) :
  request_get_input_tensor env 0 = Returns input0 ->
  request_get_input_tensor env 1 = Returns input1 ->
  request_get_input_tensor env 2 = Returns input2 ->
  fst (with_inputs env fuel input0 input1 input2) = Undefined ->
  low_rank \/ short_input \/ INT_MAX < Z.of_nat fuel.
Proof.
  intros G0 G1 G2. unfold with_inputs.
  destruct (read_HW (get_shape input0)) as [hw|] eqn:HW.
  2:{ intros _. left. exists input0. split; [exact G0|]. now apply read_HW_none. }
  unfold defined at 1. rewrite bind_ret, bind_print_after.
  unfold fill_inputs. rewrite !fill_tensor_spec. unfold defined.
  rewrite !bind_ret. cbv iota beta. rewrite bind_print_after, after_after.
  destruct (request_infer env 0) as [[]|e];
    [rewrite bind_call_after | rewrite bind_call_raises; discriminate].
  destruct (request_get_output_tensor env 0) as [output|e] eqn:Go;
    [rewrite bind_call_after | rewrite bind_call_raises; discriminate].
  rewrite !after_after, fst_after, fst_bind. cbn [data].
  destruct (fst (verify _ _ _ _ _)) eqn:V; try discriminate.
  - intro H. right. right. now apply (stress_test_undefined env).
  - intros _. right. left.
    assert (V' : ~ buffers_cover (data output)
                    (draws (get_size input0) (seed_engine 42))
                    (draws (get_size input1) (seed_engine 42))
                    (draws (get_size input2) (seed_engine 42))
                    (get_size output)).
    { intro Hc. rewrite (verify_spec _ _ _ _ _ Hc) in V. discriminate V. }
    clear V. rename V' into V.
    unfold buffers_cover in V. rewrite !draws_length in V.
    fold (get_size output) in V.
    destruct (le_lt_dec (get_size output) (get_size input0)) as [L0|L0];
      [|exists 0%nat, output; split; [lia|]; split; [exact Go|]; exists input0; auto].
    destruct (le_lt_dec (get_size output) (get_size input1)) as [L1|L1];
      [|exists 1%nat, output; split; [lia|]; split; [exact Go|]; exists input1; auto].
    destruct (le_lt_dec (get_size output) (get_size input2)) as [L2|L2];
      [|exists 2%nat, output; split; [lia|]; split; [exact Go|]; exists input2; auto].
    exfalso. apply V. repeat split; auto.
Qed.

(** X14.  Undefined behaviour has three sources and no other: the
    shape of input 0 has a rank below 4, an input tensor has fewer
    elements than the output, or the loop counter leaves the range of
    an [int], which takes more than [INT_MAX] iterations.  With inputs
    of rank 4 that are as large as the output, a run of fewer
    iterations is free of it, whatever the engine returns or raises. *)
Theorem main_undefined_sources (fuel : nat) :
  fst (main env fuel) = UndefinedBehaviour ->
  low_rank \/ short_input \/ INT_MAX < Z.of_nat fuel.
Proof.
  assert (Hm : fst (main env fuel) = UndefinedBehaviour ->
               fst (main_body env fuel) = Undefined).
  { unfold main. destruct (main_body env fuel) as [[[]|e| |] t]; cbn [fst];
      (discriminate || reflexivity). }
  intro H. apply Hm in H. revert H. clear Hm. unfold main_body.
  destruct (core_ctor env) as [[]|e];
    [rewrite bind_call_after | rewrite bind_call_raises; discriminate].
  destruct (core_add_extension env) as [[]|e];
    [rewrite bind_call_after, bind_print_after, !after_after
    |rewrite bind_call_raises; discriminate].
  destruct (core_get_available_devices env) as [devices|e];
    [rewrite bind_call_after, !after_after
    |rewrite bind_call_raises; discriminate].
  rewrite fst_after, fst_bind.
  assert (Hg : fst (check_gpu devices) = Ok tt).
  { unfold check_gpu. destruct (negb (find_gpu devices)); reflexivity. }
  rewrite Hg. unfold after_devices. rewrite !bind_print_after, !after_after.
  destruct (core_read_model env model_xml) as [[]|e];
    [rewrite bind_call_after, !after_after
    |rewrite bind_call_raises; discriminate].
  destruct (core_compile_model env "GPU" config) as [[]|e];
    [rewrite bind_call_after, !after_after
    |rewrite bind_call_raises; discriminate].
  destruct (create_infer_request env) as [[]|e];
    [rewrite bind_call_after, !after_after
    |rewrite bind_call_raises; discriminate].
  destruct (request_get_input_tensor env 0) as [input0|e] eqn:G0;
    [rewrite bind_call_after, !after_after
    |rewrite bind_call_raises; discriminate].
  destruct (request_get_input_tensor env 1) as [input1|e] eqn:G1;
    [rewrite bind_call_after, !after_after
    |rewrite bind_call_raises; discriminate].
  destruct (request_get_input_tensor env 2) as [input2|e] eqn:G2;
    [rewrite bind_call_after, !after_after
    |rewrite bind_call_raises; discriminate].
  rewrite fst_after. apply (with_inputs_undefined fuel input0 input1 input2 G0 G1 G2).
Qed.

End UndefinedSources.

Lemma main_undefined_sources_witness :
  @low_rank matrix_env \/ @short_input matrix_env \/ INT_MAX < Z.of_nat 12.
Proof.
  apply (@main_undefined_sources MT19937.random matrix_env 12).
  reflexivity.
Defined.

(* ================================================================== *)
(** * The exit status *)
(* ================================================================== *)

(** C3.  The process exits with status 0 exactly when the body of
    [main] runs to its end, and then no call into the engine raised;
    what the verification reported plays no part: a run that the engine
    carries through exits with 0 whether the verdict is success or
    failure.  It exits with status 1 exactly when an exception leaves
    the body, that is when a call into the engine raised: that call is
    the last thing the body did (nothing is tried again), the handler
    prints the message after it and the process returns 1.  No other
    status occurs. *)
Theorem main_exit_status `{rng : UniformRandom} (env : Env) (fuel : nat) :
  (forall t, main_body env fuel = (Ok tt, t) ->
     main env fuel = (Exit 0, t) /\ forallb quiet t = true) /\
  (forall e t, main_body env fuel = (Throw e, t) ->
     main env fuel = (Exit 1, t ++ [Stderr ("Exception: " ++ e)]) /\
     exists op pre, t = pre ++ [Call op (Some e)] /\ forallb quiet pre = true) /\
  (forall status t, main env fuel = (Exit status, t) ->
     (status = 0 /\ main_body env fuel = (Ok tt, t)) \/
     (status = 1 /\ exists e t0,
        main_body env fuel = (Throw e, t0) /\
        t = t0 ++ [Stderr ("Exception: " ++ e)])) /\
  ((exists t, main env fuel = (Exit 1, t)) <->
   exists op e, In (Call op (Some e)) (snd (main_body env fuel))) /\
  (forall k input0 input1 input2 output,
     verification_runs env input0 input1 input2 output ->
     (forall j, request_infer env j = Returns tt) ->
     (1 <= k)%nat -> thirty_seconds <= elapsed env k ->
     Z.of_nat k <= INT_MAX -> (k <= fuel)%nat ->
     exists t, main env fuel = (Exit 0, t) /\
               In (run_verdict input0 input1 input2 output) t).
Proof.
  pose proof (regular_main_body env fuel) as R.
  split; [|split; [|split; [|split]]].
  - intros t E. unfold main. rewrite E in *. split; [reflexivity | exact R].
  - intros e t E. unfold main. rewrite E in *. split; [reflexivity|].
    destruct R as (pre & op & Ht & Hpre). exists op, pre. auto.
  - intros status t H. destruct (main_exit_inversion env fuel status t H)
      as [(-> & E & _) | (-> & e & op & pre & E & _ & ->)].
    + left. auto.
    + right. split; [reflexivity|]. exists e, (pre ++ [Call op (Some e)]).
      split; [exact E|]. now rewrite <- app_assoc.
  - unfold main. destruct (main_body env fuel) as [[[]|e| |] t] eqn:E;
      cbn [snd]; simpl in R.
    + split; [intros [t' H]; discriminate H|].
      intros (op & e & Hin). rewrite forallb_forall in R.
      specialize (R _ Hin). discriminate R.
    + split; [|intros _; eexists; reflexivity].
      intros _. destruct R as (pre & op & -> & _).
      exists op, e. apply in_or_app. right. now left.
    + split; [intros [t' H]; discriminate H|].
      intros (op & e & Hin). rewrite forallb_forall in R.
      specialize (R _ Hin). discriminate R.
    + split; [intros [t' H]; discriminate H|].
      intros (op & e & Hin). rewrite forallb_forall in R.
      specialize (R _ Hin). discriminate R.
  - intros k input0 input1 input2 output Hv Hinfer Hk Hr Hmax Hf.
    destruct Hv as (Ha & Hrank & _ & Hout & S0 & S1 & S2).
    exact (main_completes env fuel k input0 input1 input2 output
             Ha Hrank Hinfer Hout S0 S1 S2 Hk Hr Hmax Hf).
Qed.

Definition ones_2x2 : Tensor := tensor_2x2 (repeat F32.one 4).

Lemma wrong_env_verification_runs :
  @verification_runs wrong_env zeros_2x2 zeros_2x2 zeros_2x2 ones_2x2.
Proof.
  unfold verification_runs, inputs_acquired.
  split.
  { split; [reflexivity|]. split; [reflexivity|].
    split; [eexists; reflexivity|]. repeat split; reflexivity. }
  split; [simpl; lia|]. split; [reflexivity|]. split; [reflexivity|].
  repeat split; unfold get_size; simpl; lia.
Qed.

Lemma main_exit_status_witness :
  (exists t max_diff,
     @main MT19937.random wrong_env 12 = (Exit 0, t) /\ In (Failure max_diff) t) /\
  (exists t,
     @main MT19937.random no_compile_env 0 = (Exit 1, t) /\
     last t stress_start_line =
       Stderr "Exception: Device with GPU name is not registered").
Proof.
  split.
  - destruct (@main_exit_status MT19937.random wrong_env 12) as (_ & _ & _ & _ & H).
    destruct (H 10%nat zeros_2x2 zeros_2x2 zeros_2x2 ones_2x2
                wrong_env_verification_runs) as (t & E & Hin).
    + reflexivity.
    + lia.
    + vm_compute. discriminate.
    + vm_compute. discriminate.
    + lia.
    + assert (Hv : exists m,
                 @run_verdict MT19937.random zeros_2x2 zeros_2x2 zeros_2x2 ones_2x2 =
                 Failure m)
        by (eexists; vm_compute; reflexivity).
      destruct Hv as [m Hv]. rewrite Hv in Hin. exists t, m. split; assumption.
  - destruct (@main_exit_status MT19937.random no_compile_env 0) as (_ & H & _).
    assert (E : @main_body MT19937.random no_compile_env 0 =
                (Throw "Device with GPU name is not registered"%string,
                 snd (@main_body MT19937.random no_compile_env 0)))
      by (vm_compute; reflexivity).
    destruct (H _ _ E) as (Em & _).
    eexists. split; [exact Em|]. apply last_last.
Defined.

(* ================================================================== *)
(** * The end of the stress loop and the thirty seconds *)
(* ================================================================== *)

(** How far past the thirty seconds the check after iteration [n]
    comes. *)
Definition overrun (env : Env) (n : nat) : Z := elapsed env n - thirty_seconds.

(** In the words of the specification: the loop exits within one
    inference-call duration after the thirty-second mark.  The last
    call is the [n]-th, it began at the tick [began] and the clock is
    read as soon as it has returned. *)
Definition exits_within_one_inference_call (env : Env) (n : nat) (began : Z)
  : Prop :=
  overrun env n <= clock_now env n - began.

(** C4 (as amended).  Let every inference call return, and let the
    clock reach the thirty seconds at some check [k] made while the
    counter is still an [int].  Then the loop terminates, given the
    steps for it, at the first check [n] that finds the thirty seconds
    over, after exactly [n] inference calls, and reports [n >= 1].  It
    overruns the thirty seconds by less than the duration of its last
    iteration, which is the progress print of the iteration before, if
    any, followed by the last inference call; the overrun is within the
    duration of that call when the call began before the thirty seconds
    were over. *)
Theorem stress_loop_terminates (env : Env) (k fuel : nat) :
  (forall j, request_infer env j = Returns tt) ->
  (1 <= k)%nat -> thirty_seconds <= elapsed env k ->
  Z.of_nat k <= INT_MAX -> (k <= fuel)%nat ->
  exists n,
    (1 <= n <= k)%nat /\
    fst (stress_loop env fuel (clock_now env 0) 0) = Ok (Z.of_nat n) /\
    calls_of (snd (stress_loop env fuel (clock_now env 0) 0)) = repeat Infer n /\
    fst (stress_test env fuel) = Ok tt /\
    last (snd (stress_test env fuel)) stress_start_line = Total (Z.of_nat n) /\
    thirty_seconds <= elapsed env n /\
    (forall j, (j < n)%nat -> elapsed env j < thirty_seconds) /\
    overrun env n < clock_now env n - clock_now env (n - 1) /\
    (forall began,
       clock_now env (n - 1) <= began ->
       overrun env n < (began - clock_now env (n - 1)) + (clock_now env n - began)) /\
    (forall began,
       began - clock_now env 0 <= thirty_seconds ->
       exits_within_one_inference_call env n began).
Proof.
  intros Hi Hk Hr Hmax Hf.
  assert (Hr' : reached env k = true) by (apply Z.leb_le; exact Hr).
  destruct (stress_test_run env k fuel Hi Hk Hr' Hmax Hf)
    as (n & Hn & Rn & Hbefore & Hloop & Htest).
  assert (Hlt : forall j, (j < n)%nat -> elapsed env j < thirty_seconds).
  { intros j Hj. destruct j as [|j].
    - unfold elapsed, thirty_seconds. lia.
    - specialize (Hbefore (S j) ltac:(lia)). now apply Z.leb_gt in Hbefore. }
  assert (Hprev : elapsed env (n - 1) < thirty_seconds) by (apply Hlt; lia).
  exists n. rewrite Hloop, Htest. cbn [fst snd].
  split; [exact Hn|]. split; [reflexivity|].
  split; [rewrite calls_of_loop_events; now replace (S (n - 1)) with n by lia|].
  split; [reflexivity|].
  split; [rewrite app_comm_cons; apply last_last|].
  split; [now apply Z.leb_le|].
  split; [exact Hlt|].
  unfold exits_within_one_inference_call, overrun, elapsed in *.
  repeat split; intros; lia.
Qed.

Lemma stress_loop_terminates_witness :
  exists n,
    fst (stress_loop slow_env 12 (clock_now slow_env 0) 0) = Ok (Z.of_nat n) /\
    calls_of (snd (stress_loop slow_env 12 (clock_now slow_env 0) 0)) = repeat Infer n /\
    (1 <= n <= 12)%nat.
Proof.
  destruct (stress_loop_terminates slow_env 12 12) as (n & Hn & Hl & Hc & _).
  - reflexivity.
  - lia.
  - vm_compute. discriminate.
  - vm_compute. discriminate.
  - lia.
  - exists n. auto.
Defined.

(** An engine that returns from every inference within a second, on a
    terminal that stalls: each iteration takes 2.9 s, the tenth check
    reads 29 s, the progress line of the tenth iteration takes 15 s to
    print, and the eleventh inference runs from 44 s to 45 s. *)
Definition stall_env : Env :=
  {| core_ctor := Returns tt;
     core_add_extension := Returns tt;
     core_get_available_devices := Returns ["GPU"]%string;
     core_read_model := fun _ => Returns tt;
     core_compile_model := fun _ _ => Returns tt;
     create_infer_request := Returns tt;
     request_get_input_tensor := fun _ => Returns zeros_2x2;
     request_infer := fun _ => Returns tt;
     request_get_output_tensor := fun _ => Returns zeros_2x2;
     clock_now := fun k => if (k <=? 10)%nat
                           then Z.of_nat k * 2900000000
                           else 45000000000 + Z.of_nat (k - 11) * 1000000000 |}.

(** The tick at which the eleventh inference of [stall_env] began. *)
Definition stall_began : Z := 44000000000.

(** An engine whose inferences return at once: one tick of the clock
    for each iteration. *)
Definition tick_env : Env :=
  {| core_ctor := Returns tt;
     core_add_extension := Returns tt;
     core_get_available_devices := Returns ["GPU"]%string;
     core_read_model := fun _ => Returns tt;
     core_compile_model := fun _ _ => Returns tt;
     create_infer_request := Returns tt;
     request_get_input_tensor := fun _ => Returns zeros_2x2;
     request_infer := fun _ => Returns tt;
     request_get_output_tensor := fun _ => Returns zeros_2x2;
     clock_now := fun k => Z.of_nat k |}.

(** C4 (the claim as stated fails).  In [stall_env] every inference
    returns, the loop ends after the eleventh with the total 11, and the
    check that ends it comes 15 s after the thirty seconds although the
    last inference call took one second: the progress line lies between
    the check before and that call.  In [tick_env] every inference
    returns as well, and the loop never ends normally: the thirty
    seconds take more iterations than an [int] counts. *)
Lemma stress_loop_overruns_inference_call :
  (exists t,
     stress_test stall_env 11 = (Ok tt, t) /\
     In (Progress 10 29000000000) t /\
     last t stress_start_line = Total 11 /\
     (forall j, request_infer stall_env j = Returns tt) /\
     clock_now stall_env 10 <= stall_began <= clock_now stall_env 11 /\
     clock_now stall_env 11 - stall_began = 1000000000 /\
     overrun stall_env 11 = 15000000000 /\
     ~ exits_within_one_inference_call stall_env 11 stall_began) /\
  ((forall j, request_infer tick_env j = Returns tt) /\
   forall fuel m t,
     stress_loop tick_env fuel (clock_now tick_env 0) 0 <> (Ok m, t)).
Proof.
  split.
  - eexists. split; [vm_compute; reflexivity|].
    split; [simpl; intuition|].
    split; [reflexivity|].
    split; [reflexivity|].
    split; [vm_compute; split; discriminate|].
    split; [reflexivity|].
    split; [reflexivity|].
    unfold exits_within_one_inference_call. vm_compute. intro H. now apply H.
  - split; [reflexivity|].
    intros fuel m t H.
    destruct (stress_loop_ok_inv tick_env fuel 0 m t H)
      as (k & _ & _ & Hmax & Rk & _).
    unfold reached, elapsed, thirty_seconds, INT_MAX in *.
    cbn [clock_now tick_env] in Rk. apply Z.leb_le in Rk. lia.
Qed.

(* ================================================================== *)
(** * A run without a GPU *)
(* ================================================================== *)

(** The calls that follow the device check in a run that the engine
    carries through, up to the verification. *)
Definition calls_after_devices : list api :=
  [ ReadModel model_xml; CompileModel "GPU" config; CreateInferRequest;
    GetInputTensor 0; GetInputTensor 1; GetInputTensor 2;
    Infer; GetOutputTensor 0 ].

(** C6.  When no name in the device list contains ["GPU"], the program
    writes the warning and a line that lists every device, and then
    goes on with the steps that follow the device check instead of
    stopping: they start with the loading of the model, and when the
    engine carries them through, the model is read and compiled, the
    inputs are taken, the inference is run and verified, the verdict is
    printed, the stress loop runs to its total and the process exits
    with status 0, as with a GPU in the list. *)
Theorem no_gpu_warns_and_continues `{rng : UniformRandom} (env : Env)
        (fuel : nat) (devices : list string) :
  core_ctor env = Returns tt ->
  core_add_extension env = Returns tt ->
  core_get_available_devices env = Returns devices ->
  (forall d, In d devices -> ~ contains d "GPU") ->
  main_body env fuel =
    (fst (after_devices env fuel),
     (setup_events ++ gpu_warning devices) ++ snd (after_devices env fuel)) /\
  gpu_warning devices =
    [ Stderr "GPU not found! This tutorial requires an Intel GPU.";
      Stderr ("Available devices: " ++ names_with_spaces devices) ] /\
  (forall d, In d devices -> contains (available_devices_line devices) d) /\
  (exists raised rest,
     snd (after_devices env fuel) =
     Stdout "Loading custom layer config from custom_add_mul.xml..." ::
     Stdout "Reading model from model.xml..." ::
     Call (ReadModel "model.xml") raised :: rest) /\
  (forall k input0 input1 input2 output,
     verification_runs env input0 input1 input2 output ->
     (forall j, request_infer env j = Returns tt) ->
     (1 <= k)%nat -> thirty_seconds <= elapsed env k ->
     Z.of_nat k <= INT_MAX -> (k <= fuel)%nat ->
     exists n rest,
       (1 <= n <= k)%nat /\
       main env fuel = (Exit 0, (setup_events ++ gpu_warning devices) ++ rest) /\
       calls_of rest = calls_after_devices ++ repeat Infer n /\
       In (run_verdict input0 input1 input2 output) rest /\
       last rest stress_start_line = Total (Z.of_nat n)).
Proof.
  intros H1 H2 H3 Hno.
  destruct (no_gpu_warns env fuel devices H1 H2 H3 Hno) as (E1 & E2 & E3 & E4).
  split; [exact E1|]. split; [exact E2|]. split; [exact E3|]. split; [exact E4|].
  intros k input0 input1 input2 output Hv Hinfer Hk Hr Hmax Hf.
  destruct (main_body_until_stress env input0 input1 input2 output fuel Hv)
    as (pre & E & Hc & _ & _ & Hin).
  assert (Hr' : reached env k = true) by now apply Z.leb_le.
  destruct (stress_test_run env k fuel Hinfer Hk Hr' Hmax Hf)
    as (n & Hn & _ & _ & _ & Hstress).
  rewrite Hstress in E. unfold after in E. cbn [fst snd] in E.
  rewrite E1 in E.
  assert (Ef : fst (after_devices env fuel) = Ok tt) by congruence.
  assert (Et : (setup_events ++ gpu_warning devices) ++ snd (after_devices env fuel) =
               pre ++ stress_start_line ::
                 loop_events env (n - 1) 0 ++ [Total (Z.of_nat n)]) by congruence.
  clear E.
  set (rest := snd (after_devices env fuel)) in *.
  assert (Hne : rest <> []).
  { destruct E4 as (raised & r & ->). discriminate. }
  exists n, rest. split; [exact Hn|]. split; [|split; [|split]].
  - unfold main. rewrite E1, Ef. reflexivity.
  - assert (Hall : calls_of ((setup_events ++ gpu_warning devices) ++ rest) =
                   setup_calls ++ repeat Infer n).
    { rewrite Et, calls_of_app, Hc, calls_of_stress_trace by (reflexivity || lia).
      reflexivity. }
    rewrite calls_of_app in Hall.
    change (calls_of (setup_events ++ gpu_warning devices))
      with [CoreCtor; AddExtension; GetAvailableDevices] in Hall.
    change setup_calls
      with ([CoreCtor; AddExtension; GetAvailableDevices] ++ calls_after_devices) in Hall.
    rewrite <- app_assoc in Hall. exact (app_inv_head _ _ _ Hall).
  - assert (Hin' : In (run_verdict input0 input1 input2 output)
                      ((setup_events ++ gpu_warning devices) ++ rest)).
    { rewrite Et. apply in_or_app. now left. }
    apply in_app_or in Hin'. destruct Hin' as [Hw|Hrest]; [|exact Hrest].
    exfalso. unfold run_verdict, verdict in Hw.
    destruct (forallb _ _); simpl in Hw; intuition discriminate.
  - rewrite <- (last_app_nonempty (setup_events ++ gpu_warning devices) rest _ Hne).
    rewrite Et, app_comm_cons, app_assoc. apply last_last.
Qed.

(** An engine without a GPU in its list that nevertheless carries the
    run through. *)
Definition cpu_only_env : Env :=
  {| core_ctor := Returns tt;
     core_add_extension := Returns tt;
     core_get_available_devices := Returns ["CPU"; "NPU"]%string;
     core_read_model := fun _ => Returns tt;
     core_compile_model := fun _ _ => Returns tt;
     create_infer_request := Returns tt;
     request_get_input_tensor := fun _ => Returns zeros_2x2;
     request_infer := fun _ => Returns tt;
     request_get_output_tensor := fun _ => Returns zeros_2x2;
     clock_now := fun k => Z.of_nat k * three_seconds |}.

Lemma cpu_only_env_verification_runs :
  @verification_runs cpu_only_env zeros_2x2 zeros_2x2 zeros_2x2 zeros_2x2.
Proof.
  unfold verification_runs, inputs_acquired.
  split.
  { split; [reflexivity|]. split; [reflexivity|].
    split; [eexists; reflexivity|]. repeat split; reflexivity. }
  split; [simpl; lia|]. split; [reflexivity|]. split; [reflexivity|].
  repeat split; unfold get_size; simpl; lia.
Qed.

Lemma no_gpu_warns_and_continues_witness :
  exists n rest,
    @main MT19937.random cpu_only_env 12 =
      (Exit 0,
       (setup_events ++
        [ Stderr "GPU not found! This tutorial requires an Intel GPU.";
          Stderr "Available devices: CPU NPU " ]) ++ rest) /\
    calls_of rest = calls_after_devices ++ repeat Infer n /\
    last rest stress_start_line = Total (Z.of_nat n).
Proof.
  destruct (@no_gpu_warns_and_continues MT19937.random cpu_only_env 12
              ["CPU"; "NPU"]%string eq_refl eq_refl eq_refl)
    as (_ & _ & _ & _ & H).
  - intros d [<-|[<-|[]]]; apply string_find_none; reflexivity.
  - destruct (H 10%nat zeros_2x2 zeros_2x2 zeros_2x2 zeros_2x2
                cpu_only_env_verification_runs) as (n & rest & _ & E & Hc & _ & Hl).
    + reflexivity.
    + lia.
    + vm_compute. discriminate.
    + vm_compute. discriminate.
    + lia.
    + exists n, rest. split; [exact E|]. split; assumption.
Defined.
